(** * robot_hunt: visibility, hiding and steering of two robots

    A shallow embedding of [robot_hunt.py]: the geometry helpers
    [collides_with_obstacles] and [line_intersects_box], the methods of
    [Robot] ([update], [can_see], [find_hiding_spot]) and the part of the
    loop of [main] that moves the robots and resets them when they touch.

    Numbers.  The program computes on numpy float64 values.  They are
    modelled by the real numbers of the Standard Library, i.e. in exact
    arithmetic: rounding, overflow, infinities and NaN are outside the model.
    [np.linalg.norm] of a vector [x, z] is [sqrt (x*x + z*z)].  A comparison
    of the program is a boolean, obtained from the decision procedures of
    the reals.

    Where rounding decides the answer, the exact model is easier than the
    program: the module [F64] below gives the segment test, [can_see] and
    [random.uniform] once more on binary64 numbers, with the operations of
    the processor, and the properties that depend on rounding are stated
    there.

    State.  A method that assigns to [self.position] returns the updated
    robot.  [random.random()] is an oracle: the list of the values it will
    return, consumed from the head. *)

From Stdlib Require Import Reals Lra Psatz List Bool ZArith Lia.
From Stdlib Require PrimFloat Uint63.
Import ListNotations.

Open Scope R_scope.

(** ** Comparisons of the program, as booleans *)

Definition Rltb (x y : R) : bool := if Rlt_dec x y then true else false.
Definition Rleb (x y : R) : bool := if Rle_dec x y then true else false.
Definition Rgtb (x y : R) : bool := Rltb y x.
Definition Reqb (x y : R) : bool := if Req_dec_T x y then true else false.

Infix "<?" := Rltb (at level 70, no associativity) : R_scope.
Infix "<=?" := Rleb (at level 70, no associativity) : R_scope.
Infix ">?" := Rgtb (at level 70, no associativity) : R_scope.
Infix "=?" := Reqb (at level 70, no associativity) : R_scope.

(** ** numpy arrays of shape (2,): a point or vector [x, z] *)

Definition vec : Type := (R * R)%type.

Definition vx (v : vec) : R := fst v.
Definition vz (v : vec) : R := snd v.

Definition vadd (a b : vec) : vec := (vx a + vx b, vz a + vz b).
Definition vsub (a b : vec) : vec := (vx a - vx b, vz a - vz b).
Definition vscale (a : vec) (k : R) : vec := (vx a * k, vz a * k).
Definition vdiv (a : vec) (k : R) : vec := (vx a / k, vz a / k).

(** [np.linalg.norm] *)
Definition norm (v : vec) : R := sqrt (vx v * vx v + vz v * vz v).

(** ** Global constants *)

Definition SIMULATION_AREA : R := 50.

(** ** class Obstacle *)

Module Obstacle.

Record t : Type := mk { position : vec; size : R }.

End Obstacle.

(** ** Helper functions *)

(** The loop returns [True] at the first obstacle whose square overlaps the
    square of edge [obj_size] centred at [pos], [False] when none does. *)
Fixpoint collides_with_obstacles (pos : vec) (obstacles : list Obstacle.t)
    (obj_size : R) : bool :=
  match obstacles with
  | [] => false
  | obs :: rest =>
      let half_obs := Obstacle.size obs / 2.0 in
      let half_obj := obj_size / 2.0 in
      if (Rabs (vx pos - vx (Obstacle.position obs)) <? half_obs + half_obj)
         && (Rabs (vz pos - vz (Obstacle.position obs)) <? half_obs + half_obj)
      then true
      else collides_with_obstacles pos rest obj_size
  end.

(** [steps = 20]; the loop variable runs over [range(steps + 1)]. *)
Definition steps : nat := 20.

(** The sample of index [i]: [t = i / steps], [point = p1 + (p2 - p1) * t]. *)
Definition sample_point (p1 p2 : vec) (i : nat) : vec :=
  let t := INR i / INR steps in
  vadd p1 (vscale (vsub p2 p1) t).

(** The loop over the samples: [True] at the first sample inside the box. *)
Fixpoint sample_loop (p1 p2 : vec) (left right top bottom : R)
    (range : list nat) : bool :=
  match range with
  | [] => false
  | i :: range' =>
      let point := sample_point p1 p2 i in
      if (left <=? vx point) && (vx point <=? right)
         && (top <=? vz point) && (vz point <=? bottom)
      then true
      else sample_loop p1 p2 left right top bottom range'
  end.

Definition line_intersects_box (p1 p2 box_center : vec) (box_size : R) : bool :=
  let half_size := box_size / 2.0 in
  let left := vx box_center - half_size in
  let right := vx box_center + half_size in
  let top := vz box_center - half_size in
  let bottom := vz box_center + half_size in
  if ((vx p1 <? left) && (vx p2 <? left))
     || ((vx p1 >? right) && (vx p2 >? right))
     || ((vz p1 <? top) && (vz p2 <? top))
     || ((vz p1 >? bottom) && (vz p2 >? bottom))
  then false
  else sample_loop p1 p2 left right top bottom (seq 0 (steps + 1)).

(** ** class Robot *)

Module Robot.

Record t : Type := mk {
  position : vec;
  color : Z * Z * Z;
  speed : R;
  size : R
}.

(** [Robot(position, color)] *)
Definition init (position : vec) (color : Z * Z * Z) : t :=
  mk position color 0.2 2.0.

(** The assignment [self.position = p]. *)
Definition set_position (self : t) (p : vec) : t :=
  mk p (color self) (speed self) (size self).

Fixpoint can_see_loop (p1 p2 : vec) (obstacles : list Obstacle.t) : bool :=
  match obstacles with
  | [] => true
  | obs :: rest =>
      if line_intersects_box p1 p2 (Obstacle.position obs) (Obstacle.size obs)
      then false
      else can_see_loop p1 p2 rest
  end.

Definition can_see (self enemy : t) (obstacles : list Obstacle.t) : bool :=
  let p1 := position self in
  let p2 := position enemy in
  can_see_loop p1 p2 obstacles.

(** The loop of [find_hiding_spot], on its two variables: [best] is
    [None] while [best_spot is None] and [best_distance] is
    [float('inf')], below which every distance lies; afterwards it holds
    [(best_spot, best_distance)]. *)
Fixpoint hiding_loop (self enemy : t) (obstacles : list Obstacle.t)
    (best : option (vec * R)) : option (vec * R) :=
  match obstacles with
  | [] => best
  | obs :: rest =>
      let to_obs := vsub (Obstacle.position obs) (position enemy) in
      let norm_ := norm to_obs in
      if norm_ =? 0 then hiding_loop self enemy rest best
      else
        let to_obs := vdiv to_obs norm_ in
        let offset := Obstacle.size obs / 2 + size self / 2 + 1.0 in
        let candidate := vadd (Obstacle.position obs) (vscale to_obs offset) in
        let d := norm (vsub candidate (position self)) in
        let closer :=
          match best with
          | None => true
          | Some (_, best_distance) => d <? best_distance
          end in
        if closer then hiding_loop self enemy rest (Some (candidate, d))
        else hiding_loop self enemy rest best
  end.

Definition find_hiding_spot (self enemy : t) (obstacles : list Obstacle.t) : vec :=
  match hiding_loop self enemy obstacles None with
  | None => position self
  | Some (best_spot, _) => best_spot
  end.

(** The target chosen in the first lines of [update]. *)
Definition choose_target (self enemy : t) (obstacles : list Obstacle.t) : vec :=
  if can_see self enemy obstacles then position enemy
  else find_hiding_spot self enemy obstacles.

(** The rest of [update]: one step of length [speed] towards [target],
    dropped when the new position collides. *)
Definition move_towards (self : t) (target : vec) (obstacles : list Obstacle.t) : t :=
  let direction := vsub target (position self) in
  let dist := norm direction in
  if dist >? 0.01 then
    let direction := vdiv direction dist in
    let step := vscale direction (speed self) in
    let new_position := vadd (position self) step in
    if negb (collides_with_obstacles new_position obstacles (size self))
    then set_position self new_position
    else self
  else self.

Definition update (self enemy : t) (obstacles : list Obstacle.t) : t :=
  move_towards self (choose_target self enemy obstacles) obstacles.

End Robot.

(** ** main: random positions and one turn of the loop *)

(** [random.uniform(a, b)] is [a + (b - a) * random.random()]. *)
Definition uniform (a b u : R) : R := a + (b - a) * u.

(** [get_random_position] draws two numbers for each attempt and returns the
    first position that does not collide, with the rest of the oracle.
    [None]: the oracle is used up and the loop is still running. *)
Fixpoint get_random_position (obstacles : list Obstacle.t) (rng : list R)
    : option (vec * list R) :=
  match rng with
  | u1 :: u2 :: rng' =>
      let pos := (uniform (- SIMULATION_AREA) SIMULATION_AREA u1,
                  uniform (- SIMULATION_AREA) SIMULATION_AREA u2) in
      if negb (collides_with_obstacles pos obstacles 2.0)
      then Some (pos, rng')
      else get_random_position obstacles rng'
  | _ => None
  end.

(** The variables of the loop and the state of the module [random]. *)
Record World : Type := mkWorld {
  robot1 : Robot.t;
  robot2 : Robot.t;
  random : list R
}.

(** [robot1.update(robot2, obstacles); robot2.update(robot1, obstacles)] *)
Definition update_robots (obstacles : list Obstacle.t) (r1 r2 : Robot.t)
    : Robot.t * Robot.t :=
  let r1' := Robot.update r1 r2 obstacles in
  let r2' := Robot.update r2 r1' obstacles in
  (r1', r2').

(** The "one touch kills" test and the reset of both positions. *)
Definition reset_on_collision (obstacles : list Obstacle.t) (r1 r2 : Robot.t)
    (rng : list R) : option World :=
  if norm (vsub (Robot.position r1) (Robot.position r2)) <? Robot.size r1 then
    match get_random_position obstacles rng with
    | None => None
    | Some (p1, rng1) =>
        match get_random_position obstacles rng1 with
        | None => None
        | Some (p2, rng2) =>
            Some (mkWorld (Robot.set_position r1 p1) (Robot.set_position r2 p2) rng2)
        end
    end
  else Some (mkWorld r1 r2 rng).

(** The simulation part of one turn of the [while running] loop. *)
Definition tick (obstacles : list Obstacle.t) (w : World) : option World :=
  let '(r1, r2) := update_robots obstacles (robot1 w) (robot2 w) in
  reset_on_collision obstacles r1 r2 (random w).

(** ** main: the obstacles, the robots and the frames *)

Definition NUM_OBSTACLES : nat := 5.

(** The loop [for i in range(NUM_OBSTACLES)] that fills [obstacles]: three
    draws for each obstacle, [x], [z] and [size].  [None]: the oracle is
    used up. *)
Fixpoint create_obstacles (count : nat) (obstacles : list Obstacle.t)
    (rng : list R) : option (list Obstacle.t * list R) :=
  match count with
  | O => Some (obstacles, rng)
  | S count' =>
      match rng with
      | ux :: uz :: us :: rng' =>
          let x := uniform (- SIMULATION_AREA + 10) (SIMULATION_AREA - 10) ux in
          let z := uniform (- SIMULATION_AREA + 10) (SIMULATION_AREA - 10) uz in
          let size := uniform 5 10 us in
          create_obstacles count' (obstacles ++ [Obstacle.mk (x, z) size]) rng'
      | _ => None
      end
  end.

(** What [main] builds before its loop: the obstacles, then the red robot
    and the blue robot at random positions. *)
Definition setup (rng : list R) : option (list Obstacle.t * World) :=
  match create_obstacles NUM_OBSTACLES [] rng with
  | None => None
  | Some (obstacles, rng0) =>
      match get_random_position obstacles rng0 with
      | None => None
      | Some (p1, rng1) =>
          match get_random_position obstacles rng1 with
          | None => None
          | Some (p2, rng2) =>
              Some (obstacles,
                    mkWorld (Robot.init p1 (1, 0, 0)%Z)
                            (Robot.init p2 (0, 0, 1)%Z) rng2)
          end
      end
  end.

(** [n] turns of the [while running] loop. *)
Fixpoint frames (n : nat) (obstacles : list Obstacle.t) (w : World)
    : option World :=
  match n with
  | O => Some w
  | S n' =>
      match tick obstacles w with
      | None => None
      | Some w' => frames n' obstacles w'
      end
  end.

(** * The same code on binary64 numbers

    The segment test, [can_see] and [random.uniform] as the program runs
    them: every operation is the float64 operation of numpy and Python,
    rounded to nearest. *)

Module F64.

Import PrimFloat.
Local Open Scope float_scope.

Definition vec : Type := (float * float)%type.

Definition vx (v : vec) : float := fst v.
Definition vz (v : vec) : float := snd v.

Definition vadd (a b : vec) : vec := (vx a + vx b, vz a + vz b).
Definition vsub (a b : vec) : vec := (vx a - vx b, vz a - vz b).
Definition vscale (a : vec) (k : float) : vec := (vx a * k, vz a * k).

Module Obstacle.

Record t : Type := mk { position : vec; size : float }.

End Obstacle.

Definition steps : nat := 20.

(** The float of a Python [int]. *)
Definition of_int (i : nat) : float := of_uint63 (Uint63.of_Z (Z.of_nat i)).

(** [t = i / steps] and [point = p1 + (p2 - p1) * t], each operation
    rounded. *)
Definition sample_point (p1 p2 : vec) (i : nat) : vec :=
  let t := of_int i / of_int steps in
  vadd p1 (vscale (vsub p2 p1) t).

Fixpoint sample_loop (p1 p2 : vec) (left right top bottom : float)
    (range : list nat) : bool :=
  match range with
  | [] => false
  | i :: range' =>
      let point := sample_point p1 p2 i in
      if (left <=? vx point) && (vx point <=? right)
         && (top <=? vz point) && (vz point <=? bottom)
      then true
      else sample_loop p1 p2 left right top bottom range'
  end.

Definition line_intersects_box (p1 p2 box_center : vec) (box_size : float)
    : bool :=
  let half_size := box_size / 2.0 in
  let left := vx box_center - half_size in
  let right := vx box_center + half_size in
  let top := vz box_center - half_size in
  let bottom := vz box_center + half_size in
  if ((vx p1 <? left) && (vx p2 <? left))
     || ((right <? vx p1) && (right <? vx p2))
     || ((vz p1 <? top) && (vz p2 <? top))
     || ((bottom <? vz p1) && (bottom <? vz p2))
  then false
  else sample_loop p1 p2 left right top bottom (seq 0 (steps + 1)).

Module Robot.

Record t : Type := mk {
  position : vec;
  color : Z * Z * Z;
  speed : float;
  size : float
}.

Definition init (position : vec) (color : Z * Z * Z) : t :=
  mk position color 0.2 2.0.

Fixpoint can_see_loop (p1 p2 : vec) (obstacles : list Obstacle.t) : bool :=
  match obstacles with
  | [] => true
  | obs :: rest =>
      if line_intersects_box p1 p2 (Obstacle.position obs) (Obstacle.size obs)
      then false
      else can_see_loop p1 p2 rest
  end.

Definition can_see (self enemy : t) (obstacles : list Obstacle.t) : bool :=
  let p1 := position self in
  let p2 := position enemy in
  can_see_loop p1 p2 obstacles.

End Robot.

(** [random.uniform(a, b)] on the value [u] of [random.random()]. *)
Definition uniform (a b u : float) : float := a + (b - a) * u.

(** The test of the quick rejection of [line_intersects_box]. *)
Definition quick_rejection (p1 p2 box_center : vec) (box_size : float) : bool :=
  let half_size := box_size / 2.0 in
  let left := vx box_center - half_size in
  let right := vx box_center + half_size in
  let top := vz box_center - half_size in
  let bottom := vz box_center + half_size in
  ((vx p1 <? left) && (vx p2 <? left))
  || ((right <? vx p1) && (right <? vx p2))
  || ((vz p1 <? top) && (vz p2 <? top))
  || ((bottom <? vz p1) && (bottom <? vz p2)).

End F64.

(** * Vocabulary of the properties *)

(** The test of [collides_with_obstacles] on one obstacle. *)
Definition overlaps (pos : vec) (obj_size : R) (obs : Obstacle.t) : Prop :=
  Rabs (vx pos - vx (Obstacle.position obs)) < Obstacle.size obs / 2 + obj_size / 2
  /\ Rabs (vz pos - vz (Obstacle.position obs)) < Obstacle.size obs / 2 + obj_size / 2.

(** [new_position] of [update], for the target [target]. *)
Definition new_position (self : Robot.t) (target : vec) : vec :=
  let direction := vsub target (Robot.position self) in
  vadd (Robot.position self)
       (vscale (vdiv direction (norm direction)) (Robot.speed self)).

(** The closed square of an obstacle. *)
Definition in_footprint (p : vec) (obs : Obstacle.t) : Prop :=
  vx (Obstacle.position obs) - Obstacle.size obs / 2 <= vx p
  /\ vx p <= vx (Obstacle.position obs) + Obstacle.size obs / 2
  /\ vz (Obstacle.position obs) - Obstacle.size obs / 2 <= vz p
  /\ vz p <= vz (Obstacle.position obs) + Obstacle.size obs / 2.

(** The test of [sample_loop] on one point. *)
Definition in_box (left right top bottom : R) (p : vec) : Prop :=
  left <= vx p /\ vx p <= right /\ top <= vz p /\ vz p <= bottom.

(** [candidate] of [find_hiding_spot], for the obstacle [obs]. *)
Definition hiding_candidate (self enemy : Robot.t) (obs : Obstacle.t) : vec :=
  let to_obs := vsub (Obstacle.position obs) (Robot.position enemy) in
  vadd (Obstacle.position obs)
       (vscale (vdiv to_obs (norm to_obs))
               (Obstacle.size obs / 2 + Robot.size self / 2 + 1.0)).

(** The position built from two draws. *)
Definition random_position (u1 u2 : R) : vec :=
  (uniform (- SIMULATION_AREA) SIMULATION_AREA u1,
   uniform (- SIMULATION_AREA) SIMULATION_AREA u2).

(** The oracle that returns the given pairs of draws, in order. *)
Definition draws (pairs : list (R * R)) : list R :=
  flat_map (fun d => [fst d; snd d]) pairs.

(** The draws of a pair give a position that collides. *)
Definition rejected (obstacles : list Obstacle.t) (d : R * R) : Prop :=
  collides_with_obstacles (random_position (fst d) (snd d)) obstacles 2.0 = true.

(** A robot that does not collide with the obstacles. *)
Definition clear (obstacles : list Obstacle.t) (r : Robot.t) : Prop :=
  collides_with_obstacles (Robot.position r) obstacles (Robot.size r) = false.

(** The state [main] keeps: both robots have the size 2.0 they were created
    with and collide with no obstacle. *)
Definition robots_clear (obstacles : list Obstacle.t) (w : World) : Prop :=
  clear obstacles (robot1 w) /\ clear obstacles (robot2 w)
  /\ Robot.size (robot1 w) = 2.0 /\ Robot.size (robot2 w) = 2.0.

(** A value of [random.random()], in [0, 1). *)
Definition unit_draw (u : R) : Prop := 0 <= u < 1.

(** An obstacle as [main] creates them; [random.uniform(5, 10)] can be 10. *)
Definition obstacle_in_range (obs : Obstacle.t) : Prop :=
  - 40 <= vx (Obstacle.position obs) < 40
  /\ - 40 <= vz (Obstacle.position obs) < 40
  /\ 5 <= Obstacle.size obs <= 10.

(** Turns every comparison of the goal and of the context into a fact on
    the reals, case by case. *)
Ltac decide_cmp :=
  unfold Rgtb, Rltb, Rleb, Reqb in *;
  repeat match goal with
  | |- context [Rlt_dec ?a ?b] => destruct (Rlt_dec a b)
  | |- context [Rle_dec ?a ?b] => destruct (Rle_dec a b)
  | |- context [Req_dec_T ?a ?b] => destruct (Req_dec_T a b)
  | H : context [Rlt_dec ?a ?b] |- _ => destruct (Rlt_dec a b)
  | H : context [Rle_dec ?a ?b] |- _ => destruct (Rle_dec a b)
  | H : context [Req_dec_T ?a ?b] |- _ => destruct (Req_dec_T a b)
  end.

(** Evaluates the comparisons and absolute values of a goal on concrete
    numbers. *)
Ltac eval_cmp :=
  unfold vx, vz; simpl;
  unfold Rabs;
  repeat match goal with
  | |- context [Rcase_abs ?a] => destruct (Rcase_abs a)
  end;
  decide_cmp; simpl; try reflexivity; try lra.

(** * Properties *)

(** ** The comparisons decide the order of the reals *)

Lemma Rltb_true (x y : R) : (x <? y) = true <-> x < y.
Proof. unfold Rltb. destruct (Rlt_dec x y); split; intros; congruence || lra. Qed.

Lemma Rltb_false (x y : R) : (x <? y) = false <-> y <= x.
Proof. unfold Rltb. destruct (Rlt_dec x y); split; intros; congruence || lra. Qed.

Lemma Rgtb_true (x y : R) : (x >? y) = true <-> y < x.
Proof. apply Rltb_true. Qed.

Lemma Rgtb_false (x y : R) : (x >? y) = false <-> x <= y.
Proof. apply Rltb_false. Qed.

Lemma Rleb_true (x y : R) : (x <=? y) = true <-> x <= y.
Proof. unfold Rleb. destruct (Rle_dec x y); split; intros; congruence || lra. Qed.

Lemma Rleb_false (x y : R) : (x <=? y) = false <-> y < x.
Proof. unfold Rleb. destruct (Rle_dec x y); split; intros; congruence || lra. Qed.

Lemma Reqb_true (x y : R) : (x =? y) = true <-> x = y.
Proof. unfold Reqb. destruct (Req_dec_T x y); split; intros; congruence. Qed.


(** ** Norms *)

Lemma norm_nonneg (v : vec) : 0 <= norm v.
Proof. apply sqrt_pos. Qed.

Lemma norm_sqr (v : vec) : norm v * norm v = vx v * vx v + vz v * vz v.
Proof. unfold norm. apply sqrt_sqrt. nra. Qed.

Lemma norm_on_x (x : R) : norm (x, 0) = Rabs x.
Proof.
  unfold norm, vx, vz; simpl.
  replace (x * x + 0 * 0) with (Rsqr x) by (unfold Rsqr; ring).
  apply sqrt_Rsqr_abs.
Qed.


Lemma norm_zero_vec (v : vec) : norm v = 0 -> v = (0, 0).
Proof.
  intros H. pose proof (norm_sqr v) as Hs. rewrite H in Hs.
  destruct v as [x z]; unfold vx, vz in Hs; simpl in Hs.
  assert (x = 0) by nra. assert (z = 0) by nra. congruence.
Qed.

Lemma vsub_self (p : vec) : vsub p p = (0, 0).
Proof. unfold vsub. f_equal; ring. Qed.

(** ** Overlap of squares *)

Lemma collides_cons (pos : vec) (obs : Obstacle.t) (rest : list Obstacle.t) (s : R) :
  collides_with_obstacles pos (obs :: rest) s = true
  <-> overlaps pos s obs \/ collides_with_obstacles pos rest s = true.
Proof.
  unfold overlaps; simpl.
  destruct (Rabs (vx pos - vx (Obstacle.position obs))
            <? Obstacle.size obs / 2.0 + s / 2.0) eqn:Ex;
  destruct (Rabs (vz pos - vz (Obstacle.position obs))
            <? Obstacle.size obs / 2.0 + s / 2.0) eqn:Ez; simpl;
  try apply Rltb_true in Ex; try apply Rltb_true in Ez;
  try apply Rltb_false in Ex; try apply Rltb_false in Ez;
  split; intros H; try tauto; try (left; split; lra);
  destruct H as [[H1 H2] | H]; auto; lra.
Qed.

Lemma collides_iff (pos : vec) (obstacles : list Obstacle.t) (s : R) :
  collides_with_obstacles pos obstacles s = true
  <-> exists obs, In obs obstacles /\ overlaps pos s obs.
Proof.
  induction obstacles as [| obs rest IH].
  - simpl. split; [discriminate | intros (o & [] & _)].
  - rewrite collides_cons, IH. split.
    + intros [H | (o & Hin & Ho)].
      * exists obs. split; [left; reflexivity | exact H].
      * exists o. split; [right; exact Hin | exact Ho].
    + intros (o & [-> | Hin] & Ho); [left; exact Ho | right; exists o; auto].
Qed.

(** C7: for one obstacle, [collides_with_obstacles] answers [True] exactly
    when on both axes the distance of the centres is strictly below the sum
    of the half edges; squares that touch on an axis (distance equal to that
    sum) do not collide. *)
Theorem collides_single_obstacle (pos : vec) (obs : Obstacle.t) (obj_size : R) :
  (collides_with_obstacles pos [obs] obj_size = true
   <-> Rabs (vx pos - vx (Obstacle.position obs))
         < Obstacle.size obs / 2 + obj_size / 2
       /\ Rabs (vz pos - vz (Obstacle.position obs))
         < Obstacle.size obs / 2 + obj_size / 2)
  /\ (Rabs (vx pos - vx (Obstacle.position obs))
        = Obstacle.size obs / 2 + obj_size / 2
      \/ Rabs (vz pos - vz (Obstacle.position obs))
        = Obstacle.size obs / 2 + obj_size / 2
      -> collides_with_obstacles pos [obs] obj_size = false).
Proof.
  assert (Hiff : collides_with_obstacles pos [obs] obj_size = true
                 <-> overlaps pos obj_size obs).
  { rewrite collides_cons. simpl. split; [intros [H | H]; [exact H | discriminate] | auto]. }
  split; [exact Hiff |].
  intros Htouch.
  destruct (collides_with_obstacles pos [obs] obj_size) eqn:E; [| reflexivity].
  exfalso. destruct Hiff as [Hiff _]. destruct (Hiff eq_refl) as [H1 H2].
  destruct Htouch; lra.
Qed.

(** Two squares of edge 2 whose centres are 2 apart on the x axis touch and
    do not collide. *)
Lemma collides_single_obstacle_witness :
  collides_with_obstacles (2, 0) [Obstacle.mk (0, 0) 2] 2 = false.
Proof.
  apply (collides_single_obstacle (2, 0) (Obstacle.mk (0, 0) 2) 2).
  left. unfold vx; simpl. rewrite Rabs_right; lra.
Defined.

(** ** The step of [update] *)

Lemma move_towards_cases (self : Robot.t) (target : vec) (obstacles : list Obstacle.t) :
  let after := Robot.move_towards self target obstacles in
  after = self
  \/ (after = Robot.set_position self (new_position self target)
      /\ collides_with_obstacles (new_position self target) obstacles
           (Robot.size self) = false).
Proof.
  unfold Robot.move_towards, new_position; cbv zeta.
  destruct (norm (vsub target (Robot.position self)) >? 0.01); [| left; reflexivity].
  match goal with
  | |- context [negb ?c] => destruct c eqn:E
  end; simpl; [left | right]; auto.
Qed.

(** C3: a robot that does not collide with the obstacles does not collide
    after its step either, whatever the target: the step either commits
    [new_position], which passed [collides_with_obstacles], or leaves the
    robot as it was; the same holds for [update], whose target is the
    enemy or the hiding spot. *)
Theorem update_keeps_clear (self enemy : Robot.t) (target : vec)
    (obstacles : list Obstacle.t) :
  collides_with_obstacles (Robot.position self) obstacles (Robot.size self) = false ->
  let after := Robot.move_towards self target obstacles in
  let updated := Robot.update self enemy obstacles in
  collides_with_obstacles (Robot.position after) obstacles (Robot.size after) = false
  /\ (Robot.position after = Robot.position self
      \/ (Robot.position after = new_position self target
          /\ collides_with_obstacles (new_position self target) obstacles
               (Robot.size self) = false))
  /\ collides_with_obstacles (Robot.position updated) obstacles
       (Robot.size updated) = false.
Proof.
  intros Hclear after updated.
  assert (Hstep : forall tg,
            collides_with_obstacles
              (Robot.position (Robot.move_towards self tg obstacles)) obstacles
              (Robot.size (Robot.move_towards self tg obstacles)) = false).
  { intros tg. destruct (move_towards_cases self tg obstacles) as [-> | [-> Hfree]].
    - exact Hclear.
    - exact Hfree. }
  split; [apply Hstep | split].
  - subst after. destruct (move_towards_cases self target obstacles) as [-> | [-> Hfree]].
    + left; reflexivity.
    + right; split; [reflexivity | exact Hfree].
  - subst updated. unfold Robot.update. apply Hstep.
Qed.

(** A robot at (1.9, 0), just left of an obstacle of edge 4 centred at
    (5, 0), heads for (10, 0): its step into the obstacle is dropped. *)
Lemma update_keeps_clear_witness :
  collides_with_obstacles
    (Robot.position
       (Robot.move_towards (Robot.init (1.9, 0) (1, 0, 0)%Z) (10, 0)
          [Obstacle.mk (5, 0) 4]))
    [Obstacle.mk (5, 0) 4]
    (Robot.size
       (Robot.move_towards (Robot.init (1.9, 0) (1, 0, 0)%Z) (10, 0)
          [Obstacle.mk (5, 0) 4])) = false.
Proof.
  refine (proj1 (update_keeps_clear (Robot.init (1.9, 0) (1, 0, 0)%Z)
                   (Robot.init (10, 0) (0, 0, 1)%Z) (10, 0)
                   [Obstacle.mk (5, 0) 4] _)).
  eval_cmp.
Defined.

Lemma move_towards_stays (self : Robot.t) (target : vec) (obstacles : list Obstacle.t) :
  norm (vsub target (Robot.position self)) <= 0.01 ->
  Robot.move_towards self target obstacles = self.
Proof.
  intros Hd. unfold Robot.move_towards; cbv zeta.
  apply Rgtb_false in Hd. rewrite Hd. reflexivity.
Qed.

(** C8: when the target is at distance at most 0.01 from the robot, in
    particular when it is the robot's own position, the step returns the
    robot unchanged; so does [update] when the target it chooses is that
    close. *)
Theorem move_towards_at_target (self enemy : Robot.t) (target : vec)
    (obstacles : list Obstacle.t) :
  (norm (vsub target (Robot.position self)) <= 0.01 ->
   Robot.move_towards self target obstacles = self)
  /\ Robot.move_towards self (Robot.position self) obstacles = self
  /\ (norm (vsub (Robot.choose_target self enemy obstacles) (Robot.position self))
        <= 0.01 ->
      Robot.update self enemy obstacles = self).
Proof.
  split; [apply move_towards_stays | split].
  - apply move_towards_stays. rewrite vsub_self, norm_on_x, Rabs_R0. lra.
  - intros Hd. unfold Robot.update. apply move_towards_stays, Hd.
Qed.

(** A target 0.005 away from the robot. *)
Lemma move_towards_at_target_witness :
  Robot.move_towards (Robot.init (0, 0) (1, 0, 0)%Z) (0.005, 0) []
  = Robot.init (0, 0) (1, 0, 0)%Z.
Proof.
  refine (proj1 (move_towards_at_target (Robot.init (0, 0) (1, 0, 0)%Z)
                   (Robot.init (10, 0) (0, 0, 1)%Z) (0.005, 0) []) _).
  unfold vsub, vx, vz; simpl.
  replace (0 - 0) with 0 by ring. rewrite norm_on_x.
  rewrite Rabs_right; lra.
Defined.

(** ** Visibility *)

(** C9: without obstacles every robot sees every other one, and the target
    of [update] is the enemy's position; for a robot at (0, 0) and an enemy
    at (10, 0) it is (10, 0). *)
Theorem can_see_without_obstacles (self enemy : Robot.t) (c1 c2 : Z * Z * Z) :
  Robot.can_see self enemy [] = true
  /\ Robot.choose_target self enemy [] = Robot.position enemy
  /\ Robot.choose_target (Robot.init (0, 0) c1) (Robot.init (10, 0) c2) [] = (10, 0).
Proof. repeat split. Qed.

Lemma can_see_loop_false (p1 p2 : vec) (obstacles : list Obstacle.t) :
  Robot.can_see_loop p1 p2 obstacles = false
  <-> exists obs, In obs obstacles
        /\ line_intersects_box p1 p2 (Obstacle.position obs) (Obstacle.size obs) = true.
Proof.
  induction obstacles as [| obs rest IH]; simpl.
  - split; [discriminate | intros (o & [] & _)].
  - destruct (line_intersects_box p1 p2 (Obstacle.position obs) (Obstacle.size obs)) eqn:E.
    + split; [intros _; exists obs; auto | reflexivity].
    + rewrite IH. split.
      * intros (o & Hin & Ho). exists o; auto.
      * intros (o & [<- | Hin] & Ho); [congruence | exists o; auto].
Qed.

Lemma sample_point_first (p1 p2 : vec) : sample_point p1 p2 0 = p1.
Proof.
  unfold sample_point, vadd, vscale, vsub, steps, vx, vz; simpl.
  destruct p1 as [x1 z1]; simpl. f_equal; field.
Qed.

Lemma line_intersects_box_from_inside (p1 p2 : vec) (obs : Obstacle.t) :
  in_footprint p1 obs ->
  line_intersects_box p1 p2 (Obstacle.position obs) (Obstacle.size obs) = true.
Proof.
  intros (Hl & Hr & Ht & Hb). unfold line_intersects_box; cbv zeta.
  assert (E1 : (vx p1 <? vx (Obstacle.position obs) - Obstacle.size obs / 2.0) = false)
    by (apply Rltb_false; lra).
  assert (E2 : (vx p1 >? vx (Obstacle.position obs) + Obstacle.size obs / 2.0) = false)
    by (apply Rgtb_false; lra).
  assert (E3 : (vz p1 <? vz (Obstacle.position obs) - Obstacle.size obs / 2.0) = false)
    by (apply Rltb_false; lra).
  assert (E4 : (vz p1 >? vz (Obstacle.position obs) + Obstacle.size obs / 2.0) = false)
    by (apply Rgtb_false; lra).
  rewrite E1, E2, E3, E4. cbn [andb orb].
  change (seq 0 (steps + 1)) with (0%nat :: seq 1 steps).
  cbn [sample_loop]. cbv zeta. rewrite sample_point_first.
  assert (F1 : (vx (Obstacle.position obs) - Obstacle.size obs / 2.0 <=? vx p1) = true)
    by (apply Rleb_true; lra).
  assert (F2 : (vx p1 <=? vx (Obstacle.position obs) + Obstacle.size obs / 2.0) = true)
    by (apply Rleb_true; lra).
  assert (F3 : (vz (Obstacle.position obs) - Obstacle.size obs / 2.0 <=? vz p1) = true)
    by (apply Rleb_true; lra).
  assert (F4 : (vz p1 <=? vz (Obstacle.position obs) + Obstacle.size obs / 2.0) = true)
    by (apply Rleb_true; lra).
  rewrite F1, F2, F3, F4. reflexivity.
Qed.

(** C10: a robot standing inside the closed square of an obstacle of the
    list sees no enemy, wherever the enemy is: for that obstacle the quick
    rejection does not apply and the first sample, the robot's own position,
    is inside the box. *)
Theorem can_see_from_inside_obstacle (self enemy : Robot.t)
    (obstacles : list Obstacle.t) (obs : Obstacle.t) :
  In obs obstacles ->
  in_footprint (Robot.position self) obs ->
  line_intersects_box (Robot.position self) (Robot.position enemy)
    (Obstacle.position obs) (Obstacle.size obs) = true
  /\ Robot.can_see self enemy obstacles = false.
Proof.
  intros Hin Hinside.
  pose proof (line_intersects_box_from_inside (Robot.position self)
                (Robot.position enemy) obs Hinside) as Hbox.
  split; [exact Hbox |].
  unfold Robot.can_see. apply can_see_loop_false. exists obs; auto.
Qed.

(** A robot on the left edge of an obstacle of edge 4 centred at (5, 0),
    the enemy far away on the other side of the plane. *)
Lemma can_see_from_inside_obstacle_witness :
  Robot.can_see (Robot.init (3, 0) (1, 0, 0)%Z) (Robot.init (-40, 30) (0, 0, 1)%Z)
    [Obstacle.mk (20, 20) 6; Obstacle.mk (5, 0) 4] = false.
Proof.
  refine (proj2 (can_see_from_inside_obstacle (Robot.init (3, 0) (1, 0, 0)%Z)
                   (Robot.init (-40, 30) (0, 0, 1)%Z)
                   [Obstacle.mk (20, 20) 6; Obstacle.mk (5, 0) 4]
                   (Obstacle.mk (5, 0) 4) _ _)).
  - right; left; reflexivity.
  - unfold in_footprint, vx, vz; simpl. lra.
Defined.

(** ** The segment test does not depend on the direction *)

Lemma sample_loop_true (p1 p2 : vec) (left right top bottom : R) (range : list nat) :
  sample_loop p1 p2 left right top bottom range = true
  <-> exists i, In i range /\ in_box left right top bottom (sample_point p1 p2 i).
Proof.
  induction range as [| i range' IH]; cbn [sample_loop]; cbv zeta.
  - split; [discriminate | intros (i & [] & _)].
  - destruct ((left <=? vx (sample_point p1 p2 i))
              && (vx (sample_point p1 p2 i) <=? right)
              && (top <=? vz (sample_point p1 p2 i))
              && (vz (sample_point p1 p2 i) <=? bottom)) eqn:E.
    + split; [intros _ | reflexivity].
      exists i. split; [left; reflexivity |].
      repeat (apply andb_prop in E; destruct E as [E ?]).
      repeat split; apply Rleb_true; assumption.
    + rewrite IH. split.
      * intros (j & Hin & Hj). exists j; split; [right |]; assumption.
      * intros (j & [<- | Hin] & Hj); [| exists j; auto].
        destruct Hj as (H1 & H2 & H3 & H4).
        apply Rleb_true in H1, H2, H3, H4. rewrite H1, H2, H3, H4 in E.
        discriminate.
Qed.

Lemma sample_point_reverse (p1 p2 : vec) (i : nat) :
  (i <= steps)%nat -> sample_point p1 p2 i = sample_point p2 p1 (steps - i).
Proof.
  intros Hi. unfold sample_point, vadd, vscale, vsub, vx, vz; cbn [fst snd].
  rewrite (minus_INR steps i Hi).
  assert (Hs : INR steps <> 0) by (unfold steps; simpl; lra).
  f_equal; field; exact Hs.
Qed.

Lemma sample_loop_reverse (p1 p2 : vec) (left right top bottom : R) :
  sample_loop p1 p2 left right top bottom (seq 0 (steps + 1)) = true ->
  sample_loop p2 p1 left right top bottom (seq 0 (steps + 1)) = true.
Proof.
  rewrite !sample_loop_true. intros (i & Hin & Hbox).
  apply in_seq in Hin.
  assert (Hi : (i <= steps)%nat) by lia.
  exists (steps - i)%nat. split.
  - apply in_seq. lia.
  - rewrite <- sample_point_reverse by exact Hi. exact Hbox.
Qed.

Lemma line_intersects_box_sym (p1 p2 box_center : vec) (box_size : R) :
  line_intersects_box p1 p2 box_center box_size
  = line_intersects_box p2 p1 box_center box_size.
Proof.
  unfold line_intersects_box; cbv zeta.
  set (left := vx box_center - box_size / 2.0).
  set (right := vx box_center + box_size / 2.0).
  set (top := vz box_center - box_size / 2.0).
  set (bottom := vz box_center + box_size / 2.0).
  rewrite (andb_comm (vx p2 <? left)), (andb_comm (vx p2 >? right)),
          (andb_comm (vz p2 <? top)), (andb_comm (vz p2 >? bottom)).
  match goal with |- (if ?c then _ else _) = _ => destruct c end; [reflexivity |].
  apply eq_true_iff_eq. split; apply sample_loop_reverse.
Qed.

(** In exact arithmetic [can_see] gives the same answer in both directions,
    and so does the segment test on every box: the quick rejection is
    symmetric in the two end points and the 21 samples of the segment are
    the same points. *)
Theorem can_see_sym (self enemy : Robot.t) (obstacles : list Obstacle.t) :
  Robot.can_see self enemy obstacles = Robot.can_see enemy self obstacles
  /\ forall box_center box_size,
       line_intersects_box (Robot.position self) (Robot.position enemy)
         box_center box_size
       = line_intersects_box (Robot.position enemy) (Robot.position self)
           box_center box_size.
Proof.
  split; [| intros; apply line_intersects_box_sym].
  unfold Robot.can_see; cbv zeta.
  induction obstacles as [| obs rest IH]; cbn [Robot.can_see_loop].
  - reflexivity.
  - rewrite line_intersects_box_sym, IH. reflexivity.
Qed.

(** ** The two directions on binary64 numbers *)

Lemma quick_rejection_sym (p1 p2 box_center : F64.vec) (box_size : PrimFloat.float) :
  F64.quick_rejection p1 p2 box_center box_size
  = F64.quick_rejection p2 p1 box_center box_size.
Proof.
  unfold F64.quick_rejection; cbv zeta.
  f_equal; [f_equal; [f_equal |] |]; apply andb_comm.
Qed.

Lemma line_intersects_box_rejected (p1 p2 box_center : F64.vec)
    (box_size : PrimFloat.float) :
  F64.quick_rejection p1 p2 box_center box_size = true ->
  F64.line_intersects_box p1 p2 box_center box_size = false.
Proof.
  unfold F64.quick_rejection, F64.line_intersects_box; cbv zeta.
  intros ->. reflexivity.
Qed.

Lemma can_see_all_rejected (p1 p2 : F64.vec) (obstacles : list F64.Obstacle.t) :
  (forall obs, In obs obstacles ->
     F64.quick_rejection p1 p2 (F64.Obstacle.position obs) (F64.Obstacle.size obs)
     = true) ->
  F64.Robot.can_see_loop p1 p2 obstacles = true.
Proof.
  induction obstacles as [| obs rest IH]; intros Hall; [reflexivity |].
  cbn [F64.Robot.can_see_loop].
  rewrite line_intersects_box_rejected by (apply Hall; left; reflexivity).
  apply IH. intros o Ho. apply Hall. right; exact Ho.
Qed.

Module Binary64.

Import PrimFloat.
Local Open Scope float_scope.

(** C4, as the program has it: the quick rejection is the same test in
    both directions, so on binary64 numbers two robots see each other in
    both directions when every obstacle is rejected by it; the 21 samples
    are the same points in both directions in exact arithmetic only, where
    [can_see] is symmetric for every input. *)
Theorem can_see_directions (self enemy : Robot.t) (obstacles : list Obstacle.t)
    (fself fenemy : F64.Robot.t) (fobstacles : list F64.Obstacle.t) :
  Robot.can_see self enemy obstacles = Robot.can_see enemy self obstacles
  /\ (forall box_center box_size,
        F64.quick_rejection (F64.Robot.position fself) (F64.Robot.position fenemy)
          box_center box_size
        = F64.quick_rejection (F64.Robot.position fenemy) (F64.Robot.position fself)
            box_center box_size)
  /\ ((forall obs, In obs fobstacles ->
         F64.quick_rejection (F64.Robot.position fself) (F64.Robot.position fenemy)
           (F64.Obstacle.position obs) (F64.Obstacle.size obs) = true) ->
      F64.Robot.can_see fself fenemy fobstacles = true
      /\ F64.Robot.can_see fenemy fself fobstacles = true).
Proof.
  split; [apply can_see_sym | split].
  - intros c s. apply quick_rejection_sym.
  - intros Hall. unfold F64.Robot.can_see; cbv zeta. split.
    + apply can_see_all_rejected, Hall.
    + apply can_see_all_rejected. intros obs Hin.
      rewrite quick_rejection_sym. apply Hall, Hin.
Qed.

(** Robots at (0, 0) and (10, 0), the obstacle of edge 6 at (0, 20) beside
    them. *)
Lemma can_see_directions_witness :
  F64.Robot.can_see (F64.Robot.init (0, 0) (1, 0, 0)%Z)
    (F64.Robot.init (10, 0) (0, 0, 1)%Z) [F64.Obstacle.mk (0, 20) 6] = true
  /\ F64.Robot.can_see (F64.Robot.init (10, 0) (0, 0, 1)%Z)
       (F64.Robot.init (0, 0) (1, 0, 0)%Z) [F64.Obstacle.mk (0, 20) 6] = true.
Proof.
  refine (proj2 (proj2 (can_see_directions
                          (Robot.init (0%R, 0%R) (1, 0, 0)%Z)
                          (Robot.init (10%R, 0%R) (0, 0, 1)%Z) []
                          (F64.Robot.init (0, 0) (1, 0, 0)%Z)
                          (F64.Robot.init (10, 0) (0, 0, 1)%Z)
                          [F64.Obstacle.mk (0, 20) 6])) _).
  intros obs [<- | []]. vm_compute. reflexivity.
Defined.

(** C4 fails as stated.  Robot A at (-18.69, -2.23), robot B at
    (42.69, -44.28) and the obstacle of edge 5.5 at (17, -30.21): a sample
    of the segment from A to B falls in the box, none of the segment from B
    to A does, so A does not see B and B sees A.  Likewise with A at (0, 0),
    B at (18, 0) and a box of edge 0.9 at (11.25, 0), the other way round. *)
Lemma can_see_differs_by_direction :
  (F64.Robot.can_see (F64.Robot.init (-18.69, -2.23) (1, 0, 0)%Z)
     (F64.Robot.init (42.69, -44.28) (0, 0, 1)%Z)
     [F64.Obstacle.mk (17, -30.21) 5.5] = false
   /\ F64.Robot.can_see (F64.Robot.init (42.69, -44.28) (0, 0, 1)%Z)
        (F64.Robot.init (-18.69, -2.23) (1, 0, 0)%Z)
        [F64.Obstacle.mk (17, -30.21) 5.5] = true)
  /\ (F64.Robot.can_see (F64.Robot.init (0, 0) (1, 0, 0)%Z)
        (F64.Robot.init (18, 0) (0, 0, 1)%Z)
        [F64.Obstacle.mk (11.25, 0) 0.9] = true
      /\ F64.Robot.can_see (F64.Robot.init (18, 0) (0, 0, 1)%Z)
           (F64.Robot.init (0, 0) (1, 0, 0)%Z)
           [F64.Obstacle.mk (11.25, 0) 0.9] = false).
Proof. vm_compute. repeat split. Qed.

(** The samples behind the second case: from (0, 0) the samples 12 and 13
    are just outside the box from 10.8 to 11.7, from (18, 0) sample 7 is
    on its edge. *)
Lemma samples_differ_by_direction :
  F64.vx (F64.sample_point (0, 0) (18, 0) 12) = 10.799999999999999
  /\ F64.vx (F64.sample_point (0, 0) (18, 0) 13) = 11.700000000000001
  /\ F64.vx (F64.sample_point (18, 0) (0, 0) 7) = 11.7
  /\ 11.25 - 0.9 / 2.0 = 10.8
  /\ 11.25 + 0.9 / 2.0 = 11.7.
Proof. vm_compute. repeat split. Qed.

(** [random.uniform] at the largest value of [random.random()], 1 - 2^-53:
    between 5 and 10 it gives 10, between -50 and 50 and between -40 and 40
    it stays below the upper bound. *)
Lemma uniform_reaches_upper_bound :
  (0x1.fffffffffffffp-1 <? 1) = true
  /\ F64.uniform 5 10 0x1.fffffffffffffp-1 = 10
  /\ (F64.uniform (-50) 50 0x1.fffffffffffffp-1 <? 50) = true
  /\ (F64.uniform (-40) 40 0x1.fffffffffffffp-1 <? 40) = true.
Proof. vm_compute. repeat split. Qed.

End Binary64.

(** ** Hiding spots *)

Lemma norm_zero_iff (a b : vec) : norm (vsub a b) = 0 <-> a = b.
Proof.
  split.
  - intros H. apply norm_zero_vec in H.
    destruct a as [ax az], b as [bx bz]. unfold vsub, vx, vz in H; simpl in H.
    injection H as Hx Hz. f_equal; lra.
  - intros ->. rewrite vsub_self, norm_on_x, Rabs_R0. reflexivity.
Qed.


Lemma find_hiding_spot_single (self enemy : Robot.t) (obs : Obstacle.t) :
  Obstacle.position obs <> Robot.position enemy ->
  Robot.find_hiding_spot self enemy [obs] = hiding_candidate self enemy obs.
Proof.
  intros Hne. unfold Robot.find_hiding_spot; cbn [Robot.hiding_loop]; cbv zeta.
  destruct (norm (vsub (Obstacle.position obs) (Robot.position enemy)) =? 0) eqn:En.
  - apply Reqb_true, norm_zero_iff in En. contradiction.
  - reflexivity.
Qed.


Lemma norm_eq (v : vec) (n : R) :
  0 <= n -> vx v * vx v + vz v * vz v = n * n -> norm v = n.
Proof. intros Hn Hv. unfold norm. rewrite Hv. apply sqrt_square, Hn. Qed.

(** One turn of the loop of [find_hiding_spot] on a usable obstacle. *)
Lemma hiding_loop_step (self enemy : Robot.t) (obs : Obstacle.t)
    (rest : list Obstacle.t) (best : option (vec * R)) :
  Obstacle.position obs <> Robot.position enemy ->
  let candidate := hiding_candidate self enemy obs in
  let d := norm (vsub candidate (Robot.position self)) in
  Robot.hiding_loop self enemy (obs :: rest) best
  = Robot.hiding_loop self enemy rest
      (if match best with
          | None => true
          | Some (_, best_distance) => d <? best_distance
          end
       then Some (candidate, d) else best).
Proof.
  intros Hne candidate d. cbn [Robot.hiding_loop]; cbv zeta.
  destruct (norm (vsub (Obstacle.position obs) (Robot.position enemy)) =? 0) eqn:En.
  - apply Reqb_true, norm_zero_iff in En. contradiction.
  - fold (hiding_candidate self enemy obs). fold candidate. fold d.
    destruct (match best with
              | None => true
              | Some (_, best_distance) => d <? best_distance
              end); reflexivity.
Qed.

(** A point of a segment is below every bound that both ends are below,
    and above every bound that both ends are above. *)
Lemma segment_below (a b bound t : R) :
  0 <= t <= 1 -> a < bound -> b < bound -> a + (b - a) * t < bound.
Proof.
  intros [Ht0 Ht1] Ha Hb.
  assert (H1 : 0 <= (1 - t) * (bound - a)) by (apply Rmult_le_pos; lra).
  assert (H2 : 0 <= t * (bound - b)) by (apply Rmult_le_pos; lra).
  destruct (Rle_dec t (1 / 2)) as [Hle | Hgt].
  - assert (H3 : 0 <= (1 / 2 - t) * (bound - a)) by (apply Rmult_le_pos; lra).
    lra.
  - assert (H3 : 0 <= (t - 1 / 2) * (bound - b)) by (apply Rmult_le_pos; lra).
    lra.
Qed.

Lemma segment_above (a b bound t : R) :
  0 <= t <= 1 -> bound < a -> bound < b -> bound < a + (b - a) * t.
Proof.
  intros Ht Ha Hb.
  pose proof (segment_below (- a) (- b) (- bound) t Ht) as H.
  lra.
Qed.

(** The quick rejection never hides a sample that lies in the box. *)
Lemma line_intersects_box_hit (p1 p2 box_center : vec) (box_size : R) (i : nat) :
  (i <= steps)%nat ->
  in_box (vx box_center - box_size / 2) (vx box_center + box_size / 2)
         (vz box_center - box_size / 2) (vz box_center + box_size / 2)
         (sample_point p1 p2 i) ->
  line_intersects_box p1 p2 box_center box_size = true.
Proof.
  intros Hi (Hl & Hr & Ht & Hb). unfold line_intersects_box; cbv zeta.
  replace (box_size / 2.0) with (box_size / 2) by lra.
  set (left := vx box_center - box_size / 2) in *.
  set (right := vx box_center + box_size / 2) in *.
  set (top := vz box_center - box_size / 2) in *.
  set (bottom := vz box_center + box_size / 2) in *.
  assert (Ht01 : 0 <= INR i / INR steps <= 1).
  { assert (0 <= INR i) by apply pos_INR.
    assert (INR i <= INR steps) by (apply le_INR; exact Hi).
    assert (0 < INR steps) by (unfold steps; simpl; lra).
    split.
    - apply Rmult_le_pos; [assumption | left; apply Rinv_0_lt_compat; assumption].
    - apply (Rmult_le_reg_r (INR steps)); [assumption |].
      unfold Rdiv. rewrite Rmult_assoc, Rinv_l by lra. lra. }
  unfold sample_point, vadd, vscale, vsub, vx, vz in Hl, Hr, Ht, Hb;
    cbn [fst snd] in Hl, Hr, Ht, Hb.
  set (t := INR i / INR steps) in *.
  assert (Q1 : (vx p1 <? left) && (vx p2 <? left) = false).
  { apply not_true_is_false. intros H. apply andb_prop in H. destruct H as [H1 H2].
    apply Rltb_true in H1, H2.
    pose proof (segment_below _ _ _ t Ht01 H1 H2). unfold vx in *. lra. }
  assert (Q2 : (vx p1 >? right) && (vx p2 >? right) = false).
  { apply not_true_is_false. intros H. apply andb_prop in H. destruct H as [H1 H2].
    apply Rgtb_true in H1, H2.
    pose proof (segment_above _ _ _ t Ht01 H1 H2). unfold vx in *. lra. }
  assert (Q3 : (vz p1 <? top) && (vz p2 <? top) = false).
  { apply not_true_is_false. intros H. apply andb_prop in H. destruct H as [H1 H2].
    apply Rltb_true in H1, H2.
    pose proof (segment_below _ _ _ t Ht01 H1 H2). unfold vz in *. lra. }
  assert (Q4 : (vz p1 >? bottom) && (vz p2 >? bottom) = false).
  { apply not_true_is_false. intros H. apply andb_prop in H. destruct H as [H1 H2].
    apply Rgtb_true in H1, H2.
    pose proof (segment_above _ _ _ t Ht01 H1 H2). unfold vz in *. lra. }
  rewrite Q1, Q2, Q3, Q4. cbn [orb].
  apply sample_loop_true. exists i. split.
  - apply in_seq. lia.
  - unfold in_box, sample_point, vadd, vscale, vsub, vx, vz; cbn [fst snd].
    fold t. repeat split; assumption.
Qed.

(** C5: an obstacle of edge 4 centred at (5, 0), robot A at (0, 0), robot B
    at (10, 0).  A does not see B, and the hiding spot of A is (1, 0): it is
    on the ray from B through (5, 0), at distance 2 + size/2 + 1.0 = 4
    beyond (5, 0). *)
Theorem hiding_scenario (c1 c2 : Z * Z * Z) :
  let A := Robot.init (0, 0) c1 in
  let B := Robot.init (10, 0) c2 in
  let obstacles := [Obstacle.mk (5, 0) 4] in
  let spot := Robot.find_hiding_spot A B obstacles in
  Robot.can_see A B obstacles = false
  /\ spot = (1, 0)
  /\ norm (vsub spot (5, 0)) = 2 + Robot.size A / 2 + 1.0
  /\ norm (vsub spot (5, 0)) = 4
  /\ exists k, 0 < k /\ vsub spot (5, 0) = vscale (vsub (5, 0) (10, 0)) k.
Proof.
  intros A B obstacles spot.
  assert (Hspot : spot = (1, 0)).
  { subst spot obstacles. rewrite find_hiding_spot_single.
    - unfold hiding_candidate; cbv zeta.
      assert (Hn : norm (vsub (Obstacle.position (Obstacle.mk (5, 0) 4))
                              (Robot.position B)) = 5).
      { apply norm_eq; [lra | unfold vsub, vx, vz; simpl; lra]. }
      rewrite Hn. unfold vadd, vscale, vdiv, vsub, vx, vz; simpl.
      f_equal; lra.
    - simpl. intros H. injection H as H. lra. }
  assert (Hd : norm (vsub spot (5, 0)) = 4).
  { rewrite Hspot. apply norm_eq; [lra | unfold vsub, vx, vz; simpl; lra]. }
  split; [| split; [exact Hspot | split; [| split; [exact Hd |]]]].
  - unfold Robot.can_see. apply can_see_loop_false.
    exists (Obstacle.mk (5, 0) 4). split; [left; reflexivity |].
    apply (line_intersects_box_hit _ _ _ _ 10); [unfold steps; lia |].
    unfold in_box, sample_point, vadd, vscale, vsub, steps, vx, vz; simpl. lra.
  - rewrite Hd. simpl. lra.
  - exists (4 / 5). split; [lra |].
    rewrite Hspot. unfold vsub, vscale, vx, vz; simpl. f_equal; lra.
Qed.






(** The candidate can also collide with the obstacle it is computed from,
    when the enemy is on neither axis of that obstacle: an obstacle of edge
    10 at (0, 0) and the enemy at (3, 4) give the candidate (-4.2, -5.6). *)
Lemma hiding_spot_overlaps_own_obstacle :
  let A := Robot.init (-20, -20) (1, 0, 0)%Z in
  let B := Robot.init (3, 4) (0, 0, 1)%Z in
  let obstacles := [Obstacle.mk (0, 0) 10] in
  Robot.find_hiding_spot A B obstacles = (-4.2, -5.6)
  /\ collides_with_obstacles (-4.2, -5.6) obstacles (Robot.size A) = true.
Proof.
  intros A B obstacles. split.
  - subst obstacles. rewrite find_hiding_spot_single
      by (simpl; intros H; injection H as H; lra).
    unfold hiding_candidate; cbv zeta.
    assert (Hn : norm (vsub (Obstacle.position (Obstacle.mk (0, 0) 10))
                            (Robot.position B)) = 5).
    { apply norm_eq; [lra | unfold vsub, vx, vz; simpl; lra]. }
    rewrite Hn. unfold vadd, vscale, vdiv, vsub, vx, vz; simpl. f_equal; lra.
  - subst obstacles. eval_cmp.
Qed.

(** ** The order of the two updates *)

Lemma move_towards_moves (self : Robot.t) (target : vec) (obstacles : list Obstacle.t) :
  0.01 < norm (vsub target (Robot.position self)) ->
  collides_with_obstacles (new_position self target) obstacles (Robot.size self)
    = false ->
  Robot.move_towards self target obstacles
  = Robot.set_position self (new_position self target).
Proof.
  intros Hd Hfree. unfold Robot.move_towards; cbv zeta.
  apply Rgtb_true in Hd. rewrite Hd.
  fold (new_position self target). rewrite Hfree. reflexivity.
Qed.

(** C2, as the program has it: the first robot is updated against the
    second robot as it stood before the turn, and the second robot against
    the first robot as already updated; the test of the reset follows.  The
    second update is the one against the earlier position when the first
    robot did not move. *)
Theorem updates_are_interleaved (obstacles : list Obstacle.t) (r1 r2 : Robot.t)
    (rng : list R) :
  let moved1 := Robot.update r1 r2 obstacles in
  let moved2 := Robot.update r2 moved1 obstacles in
  update_robots obstacles r1 r2 = (moved1, moved2)
  /\ tick obstacles (mkWorld r1 r2 rng)
     = reset_on_collision obstacles moved1 moved2 rng
  /\ (moved1 = r1 -> moved2 = Robot.update r2 r1 obstacles).
Proof.
  intros moved1 moved2. repeat split.
  intros Hstay. subst moved2. rewrite Hstay. reflexivity.
Qed.

(** Robot 1 at (0, 0) is within 0.01 of robot 2 at (0.005, 0) and stays. *)
Lemma updates_are_interleaved_witness :
  Robot.update (Robot.init (0.005, 0) (0, 0, 1)%Z)
    (Robot.update (Robot.init (0, 0) (1, 0, 0)%Z)
       (Robot.init (0.005, 0) (0, 0, 1)%Z) []) []
  = Robot.update (Robot.init (0.005, 0) (0, 0, 1)%Z)
      (Robot.init (0, 0) (1, 0, 0)%Z) [].
Proof.
  refine (proj2 (proj2 (updates_are_interleaved [] (Robot.init (0, 0) (1, 0, 0)%Z)
                          (Robot.init (0.005, 0) (0, 0, 1)%Z) [])) _).
  unfold Robot.update.
  change (Robot.choose_target (Robot.init (0, 0) (1, 0, 0)%Z)
            (Robot.init (0.005, 0) (0, 0, 1)%Z) []) with (0.005, 0).
  apply move_towards_stays.
  replace (vsub (0.005, 0) (Robot.position (Robot.init (0, 0) (1, 0, 0)%Z)))
    with (0.005, 0) by (unfold vsub, vx, vz; simpl; f_equal; lra).
  rewrite norm_on_x, Rabs_right; lra.
Defined.

(** C2 fails as stated.  Without obstacles, robot 1 at (0, 0) and robot 2
    at (0.1, 0): robot 1 steps to (0.2, 0), beyond robot 2; robot 2 then
    steps towards it, to (0.3, 0).  Against the position robot 1 had before
    the turn, robot 2 would step to (-0.1, 0). *)
Lemma second_update_reads_moved_robot :
  let r1 := Robot.init (0, 0) (1, 0, 0)%Z in
  let r2 := Robot.init (0.1, 0) (0, 0, 1)%Z in
  Robot.position (fst (update_robots [] r1 r2)) = (0.2, 0)
  /\ Robot.position (snd (update_robots [] r1 r2)) = (0.3, 0)
  /\ Robot.position (Robot.update r2 r1 []) = (-0.1, 0)
  /\ snd (update_robots [] r1 r2) <> Robot.update r2 r1 [].
Proof.
  intros r1 r2.
  assert (H1 : Robot.update r1 r2 [] = Robot.set_position r1 (0.2, 0)).
  { unfold Robot.update. change (Robot.choose_target r1 r2 []) with (0.1, 0).
    assert (Hn : norm (vsub (0.1, 0) (Robot.position r1)) = 0.1).
    { apply norm_eq; [lra | unfold vsub, vx, vz; simpl; lra]. }
    rewrite move_towards_moves; [| rewrite Hn; lra | reflexivity].
    f_equal. unfold new_position; cbv zeta. rewrite Hn.
    unfold vadd, vscale, vdiv, vsub, vx, vz; simpl. f_equal; lra. }
  assert (H2 : Robot.update r2 (Robot.set_position r1 (0.2, 0)) []
               = Robot.set_position r2 (0.3, 0)).
  { unfold Robot.update.
    change (Robot.choose_target r2 (Robot.set_position r1 (0.2, 0)) [])
      with (0.2, 0).
    assert (Hn : norm (vsub (0.2, 0) (Robot.position r2)) = 0.1).
    { apply norm_eq; [lra | unfold vsub, vx, vz; simpl; lra]. }
    rewrite move_towards_moves; [| rewrite Hn; lra | reflexivity].
    f_equal. unfold new_position; cbv zeta. rewrite Hn.
    unfold vadd, vscale, vdiv, vsub, vx, vz; simpl. f_equal; lra. }
  assert (H3 : Robot.update r2 r1 [] = Robot.set_position r2 (-0.1, 0)).
  { unfold Robot.update. change (Robot.choose_target r2 r1 []) with (0, 0).
    assert (Hn : norm (vsub (0, 0) (Robot.position r2)) = 0.1).
    { apply norm_eq; [lra | unfold vsub, vx, vz; simpl; lra]. }
    rewrite move_towards_moves; [| rewrite Hn; lra | reflexivity].
    f_equal. unfold new_position; cbv zeta. rewrite Hn.
    unfold vadd, vscale, vdiv, vsub, vx, vz; simpl. f_equal; lra. }
  unfold update_robots; cbv zeta. cbn [fst snd].
  rewrite H1, H2, H3. cbn [Robot.set_position Robot.position].
  repeat split.
  intros Heq. injection Heq as Hx. lra.
Qed.

(** ** Random positions and the reset *)

Lemma oracle_pair_ind (P : list R -> Prop) :
  P [] -> (forall u, P [u]) -> (forall u1 u2 l, P l -> P (u1 :: u2 :: l)) ->
  forall l, P l.
Proof.
  intros Hnil Hone Hstep.
  assert (H : forall l, P l /\ forall u, P (u :: l)).
  { induction l as [| v l [IH1 IH2]].
    - split; [exact Hnil | exact Hone].
    - split; [apply IH2 | intros u; apply Hstep, IH1]. }
  intros l. apply H.
Qed.

Lemma get_random_position_free (obstacles : list Obstacle.t) (rng : list R) :
  forall p rng',
    get_random_position obstacles rng = Some (p, rng') ->
    collides_with_obstacles p obstacles 2.0 = false.
Proof.
  induction rng as [| u | u1 u2 l IH] using oracle_pair_ind; intros p rng' H;
    cbn [get_random_position] in H; try discriminate.
  cbv zeta in H.
  destruct (collides_with_obstacles
              (uniform (- SIMULATION_AREA) SIMULATION_AREA u1,
               uniform (- SIMULATION_AREA) SIMULATION_AREA u2) obstacles 2.0) eqn:E;
    cbn [negb] in H.
  - apply (IH p rng'), H.
  - injection H as <- _. exact E.
Qed.

Lemma get_random_position_skips (obstacles : list Obstacle.t)
    (pairs : list (R * R)) (rng : list R) :
  Forall (rejected obstacles) pairs ->
  get_random_position obstacles (draws pairs ++ rng)
  = get_random_position obstacles rng.
Proof.
  induction 1 as [| [u1 u2] pairs Hrej _ IH]; [reflexivity |].
  unfold rejected, random_position in Hrej. cbn [fst snd] in Hrej.
  cbn [draws flat_map fst snd app]. cbn [get_random_position]. cbv zeta.
  rewrite Hrej. cbn [negb]. exact IH.
Qed.

Lemma get_random_position_first_free (obstacles : list Obstacle.t)
    (pairs : list (R * R)) (u1 u2 : R) (rng : list R) :
  Forall (rejected obstacles) pairs ->
  collides_with_obstacles (random_position u1 u2) obstacles 2.0 = false ->
  get_random_position obstacles (draws pairs ++ u1 :: u2 :: rng)
  = Some (random_position u1 u2, rng).
Proof.
  intros Hrej Hfree. rewrite get_random_position_skips by exact Hrej.
  cbn [get_random_position]. cbv zeta.
  fold (random_position u1 u2). rewrite Hfree. reflexivity.
Qed.

(** One turn: the two updates, then the reset test on the moved robots. *)
Lemma tick_unfold (obstacles : list Obstacle.t) (w : World) :
  tick obstacles w
  = reset_on_collision obstacles
      (fst (update_robots obstacles (robot1 w) (robot2 w)))
      (snd (update_robots obstacles (robot1 w) (robot2 w)))
      (random w).
Proof. reflexivity. Qed.

(** C6: when the robots are closer than the size of the first one, both
    get a new position from [get_random_position]: the second draw starts
    where the first one stopped, each position passed the test of
    [collides_with_obstacles] for the edge 2.0, the size every robot is
    created with, and colour, speed and size are kept.  The positions are found as soon as the oracle
    offers, after pairs that are rejected, a pair that is not, twice.  When
    the distance is at least that size nothing changes.  In [tick], [r1]
    and [r2] are the robots after their updates. *)
Theorem reset_on_collision_spec (obstacles : list Obstacle.t) (r1 r2 : Robot.t)
    (rng : list R) :
  (norm (vsub (Robot.position r1) (Robot.position r2)) < Robot.size r1 ->
   (forall w, reset_on_collision obstacles r1 r2 rng = Some w ->
      collides_with_obstacles (Robot.position (robot1 w)) obstacles 2.0 = false
      /\ collides_with_obstacles (Robot.position (robot2 w)) obstacles 2.0 = false
      /\ (exists rng1,
            get_random_position obstacles rng
            = Some (Robot.position (robot1 w), rng1)
            /\ get_random_position obstacles rng1
               = Some (Robot.position (robot2 w), random w))
      /\ Robot.color (robot1 w) = Robot.color r1
      /\ Robot.speed (robot1 w) = Robot.speed r1
      /\ Robot.size (robot1 w) = Robot.size r1
      /\ Robot.color (robot2 w) = Robot.color r2
      /\ Robot.speed (robot2 w) = Robot.speed r2
      /\ Robot.size (robot2 w) = Robot.size r2
      /\ (Robot.size r1 = 2.0 ->
          collides_with_obstacles (Robot.position (robot1 w)) obstacles
            (Robot.size (robot1 w)) = false)
      /\ (Robot.size r2 = 2.0 ->
          collides_with_obstacles (Robot.position (robot2 w)) obstacles
            (Robot.size (robot2 w)) = false))
   /\ (forall pairs1 u1 u2 pairs2 v1 v2 rest,
         rng = draws pairs1 ++ u1 :: u2 :: draws pairs2 ++ v1 :: v2 :: rest ->
         Forall (rejected obstacles) pairs1 ->
         collides_with_obstacles (random_position u1 u2) obstacles 2.0 = false ->
         Forall (rejected obstacles) pairs2 ->
         collides_with_obstacles (random_position v1 v2) obstacles 2.0 = false ->
         reset_on_collision obstacles r1 r2 rng
         = Some (mkWorld (Robot.set_position r1 (random_position u1 u2))
                         (Robot.set_position r2 (random_position v1 v2)) rest)))
  /\ (Robot.size r1 <= norm (vsub (Robot.position r1) (Robot.position r2)) ->
      reset_on_collision obstacles r1 r2 rng = Some (mkWorld r1 r2 rng)).
Proof.
  split.
  - intros Hclose. apply Rltb_true in Hclose. split.
    + intros w Hw. unfold reset_on_collision in Hw. rewrite Hclose in Hw.
      destruct (get_random_position obstacles rng) as [[p1 rng1] |] eqn:E1;
        [| discriminate].
      destruct (get_random_position obstacles rng1) as [[p2 rng2] |] eqn:E2;
        [| discriminate].
      injection Hw as <-. cbn.
      pose proof (get_random_position_free _ _ _ _ E1) as F1.
      pose proof (get_random_position_free _ _ _ _ E2) as F2.
      split; [exact F1 |]. split; [exact F2 |].
      split; [exists rng1; split; [reflexivity | exact E2] |].
      repeat split; intros ->; assumption.
    + intros pairs1 u1 u2 pairs2 v1 v2 rest -> Hrej1 Hfree1 Hrej2 Hfree2.
      unfold reset_on_collision. rewrite Hclose.
      rewrite (get_random_position_first_free _ _ _ _ _ Hrej1 Hfree1).
      rewrite (get_random_position_first_free _ _ _ _ _ Hrej2 Hfree2).
      reflexivity.
  - intros Hfar. apply Rltb_false in Hfar.
    unfold reset_on_collision. rewrite Hfar. reflexivity.
Qed.

(** An obstacle of edge 10 at (0, 0), the robots 0.5 apart.  The first pair
    of draws gives (0, 0), inside the obstacle, and is rejected; the next
    pairs give (40, 40) and (-40, -40). *)
Lemma reset_on_collision_spec_witness :
  reset_on_collision [Obstacle.mk (0, 0) 10]
    (Robot.init (20, 20) (1, 0, 0)%Z) (Robot.init (20.5, 20) (0, 0, 1)%Z)
    [0.5; 0.5; 0.9; 0.9; 0.1; 0.1; 0.7]
  = Some (mkWorld
            (Robot.set_position (Robot.init (20, 20) (1, 0, 0)%Z)
               (random_position 0.9 0.9))
            (Robot.set_position (Robot.init (20.5, 20) (0, 0, 1)%Z)
               (random_position 0.1 0.1))
            [0.7]).
Proof.
  refine (proj2 (proj1 (reset_on_collision_spec [Obstacle.mk (0, 0) 10]
                          (Robot.init (20, 20) (1, 0, 0)%Z)
                          (Robot.init (20.5, 20) (0, 0, 1)%Z)
                          [0.5; 0.5; 0.9; 0.9; 0.1; 0.1; 0.7]) _)
            [(0.5, 0.5)] 0.9 0.9 [] 0.1 0.1 [0.7] _ _ _ _ _).
  - assert (Hn : norm (vsub (Robot.position (Robot.init (20, 20) (1, 0, 0)%Z))
                        (Robot.position (Robot.init (20.5, 20) (0, 0, 1)%Z)))
                 = 0.5).
    { apply norm_eq; [lra | unfold vsub, vx, vz; simpl; lra]. }
    rewrite Hn. simpl. lra.
  - reflexivity.
  - constructor; [| constructor].
    unfold rejected, random_position, uniform, SIMULATION_AREA. eval_cmp.
  - unfold random_position, uniform, SIMULATION_AREA. eval_cmp.
  - constructor.
  - unfold random_position, uniform, SIMULATION_AREA. eval_cmp.
Defined.

(** * Further properties of the program *)

(** ** Vectors *)

Lemma Rabs_sqr (k : R) : Rabs k * Rabs k = k * k.
Proof. unfold Rabs. destruct (Rcase_abs k); ring. Qed.

Lemma norm_vscale (v : vec) (k : R) : norm (vscale v k) = Rabs k * norm v.
Proof.
  apply norm_eq.
  - apply Rmult_le_pos; [apply Rabs_pos | apply norm_nonneg].
  - replace (Rabs k * norm v * (Rabs k * norm v))
      with (Rabs k * Rabs k * (norm v * norm v)) by ring.
    rewrite Rabs_sqr, norm_sqr. unfold vscale, vx, vz; cbn [fst snd]. ring.
Qed.

Lemma vdiv_vscale (v : vec) (k : R) : vdiv v k = vscale v (/ k).
Proof. reflexivity. Qed.

Lemma norm_unit (v : vec) : 0 < norm v -> norm (vdiv v (norm v)) = 1.
Proof.
  intros Hn. rewrite vdiv_vscale, norm_vscale.
  rewrite Rabs_right by (left; apply Rinv_0_lt_compat; exact Hn).
  apply Rinv_l. lra.
Qed.

(** ** The geometry of a step *)

Lemma move_towards_moved (self : Robot.t) (target : vec) (obstacles : list Obstacle.t) :
  Robot.move_towards self target obstacles = self
  \/ (0.01 < norm (vsub target (Robot.position self))
      /\ Robot.move_towards self target obstacles
         = Robot.set_position self (new_position self target)
      /\ collides_with_obstacles (new_position self target) obstacles
           (Robot.size self) = false).
Proof.
  unfold Robot.move_towards, new_position; cbv zeta.
  destruct (norm (vsub target (Robot.position self)) >? 0.01) eqn:Ed;
    [| left; reflexivity].
  apply Rgtb_true in Ed.
  match goal with
  | |- context [negb ?c] => destruct c eqn:E
  end; cbn [negb]; [left | right]; auto.
Qed.

Lemma new_position_geometry (self : Robot.t) (target : vec) :
  0 < norm (vsub target (Robot.position self)) ->
  norm (vsub (new_position self target) (Robot.position self))
  = Rabs (Robot.speed self)
  /\ norm (vsub target (new_position self target))
     = Rabs (norm (vsub target (Robot.position self)) - Robot.speed self).
Proof.
  intros Hn. unfold new_position; cbv zeta.
  set (p := Robot.position self) in *.
  set (d := vsub target p) in *.
  set (n := norm d) in *.
  set (s := Robot.speed self).
  split.
  - replace (vsub (vadd p (vscale (vdiv d n) s)) p) with (vscale (vdiv d n) s)
      by (unfold vsub, vadd, vscale, vdiv, vx, vz; cbn [fst snd]; f_equal; ring).
    rewrite norm_vscale. unfold n. rewrite norm_unit by exact Hn. ring.
  - replace (vsub target (vadd p (vscale (vdiv d n) s)))
      with (vscale d (1 - s / n)).
    + rewrite norm_vscale. fold n.
      rewrite <- (Rabs_right n) at 2 by lra.
      rewrite <- Rabs_mult. f_equal. field. lra.
    + unfold d, vsub, vadd, vscale, vdiv, vx, vz; cbn [fst snd].
      f_equal; field; lra.
Qed.

(** X1: [update] changes nothing but the position: colour, speed and size
    of the robot are kept, whatever the enemy and the obstacles. *)
Theorem update_keeps_attributes (self enemy : Robot.t) (target : vec)
    (obstacles : list Obstacle.t) :
  let moved := Robot.move_towards self target obstacles in
  let updated := Robot.update self enemy obstacles in
  (Robot.color moved = Robot.color self
   /\ Robot.speed moved = Robot.speed self
   /\ Robot.size moved = Robot.size self)
  /\ (Robot.color updated = Robot.color self
      /\ Robot.speed updated = Robot.speed self
      /\ Robot.size updated = Robot.size self).
Proof.
  assert (H : forall tg,
            Robot.color (Robot.move_towards self tg obstacles) = Robot.color self
            /\ Robot.speed (Robot.move_towards self tg obstacles) = Robot.speed self
            /\ Robot.size (Robot.move_towards self tg obstacles) = Robot.size self).
  { intros tg. destruct (move_towards_cases self tg obstacles) as [-> | [-> _]];
      repeat split. }
  split; [apply H | unfold Robot.update; apply H].
Qed.

(** X2: a robot that [update] moves is displaced by exactly its speed (in
    absolute value): the step is never shortened, neither near the target
    nor near an obstacle. *)
Theorem update_step_length (self enemy : Robot.t) (target : vec)
    (obstacles : list Obstacle.t) :
  let moved := Robot.move_towards self target obstacles in
  let updated := Robot.update self enemy obstacles in
  (moved = self
   \/ norm (vsub (Robot.position moved) (Robot.position self))
      = Rabs (Robot.speed self))
  /\ (updated = self
      \/ norm (vsub (Robot.position updated) (Robot.position self))
         = Rabs (Robot.speed self)).
Proof.
  assert (H : forall tg,
            Robot.move_towards self tg obstacles = self
            \/ norm (vsub (Robot.position (Robot.move_towards self tg obstacles))
                          (Robot.position self))
               = Rabs (Robot.speed self)).
  { intros tg. destruct (move_towards_moved self tg obstacles)
      as [Hs | (Hd & -> & _)]; [left; exact Hs | right].
    cbn [Robot.set_position Robot.position].
    apply new_position_geometry. lra. }
  split; [apply H | unfold Robot.update; apply H].
Qed.

(** X3: after a step that is made, the distance to the target is
    |dist - speed|, where dist is the distance before: the robot gets closer
    by its speed, and steps over a target that is nearer than its speed. *)
Theorem update_distance_to_target (self : Robot.t) (target : vec)
    (obstacles : list Obstacle.t) :
  let moved := Robot.move_towards self target obstacles in
  moved = self
  \/ norm (vsub target (Robot.position moved))
     = Rabs (norm (vsub target (Robot.position self)) - Robot.speed self).
Proof.
  cbv zeta. destruct (move_towards_moved self target obstacles)
    as [Hs | (Hd & -> & _)]; [left; exact Hs | right].
  cbn [Robot.set_position Robot.position].
  apply new_position_geometry. lra.
Qed.

(** ** The choice of the hiding spot *)

Lemma vec_eq_dec (a b : vec) : {a = b} + {a <> b}.
Proof.
  destruct a as [ax az], b as [bx bz].
  destruct (Req_dec_T ax bx) as [-> | Hx]; [| right; congruence].
  destruct (Req_dec_T az bz) as [-> | Hz]; [left; reflexivity | right; congruence].
Qed.

Lemma hiding_loop_skip (self enemy : Robot.t) (obs : Obstacle.t)
    (rest : list Obstacle.t) (best : option (vec * R)) :
  Obstacle.position obs = Robot.position enemy ->
  Robot.hiding_loop self enemy (obs :: rest) best
  = Robot.hiding_loop self enemy rest best.
Proof.
  intros Heq. cbn [Robot.hiding_loop]; cbv zeta.
  apply norm_zero_iff, Reqb_true in Heq. rewrite Heq. reflexivity.
Qed.

Lemma hiding_loop_unusable (self enemy : Robot.t) (obstacles : list Obstacle.t)
    (best : option (vec * R)) :
  (forall obs, In obs obstacles -> Obstacle.position obs = Robot.position enemy) ->
  Robot.hiding_loop self enemy obstacles best = best.
Proof.
  induction obstacles as [| obs rest IH]; intros Hall; [reflexivity |].
  rewrite hiding_loop_skip by (apply Hall; left; reflexivity).
  apply IH. intros o Ho. apply Hall. right; exact Ho.
Qed.

(** The loop keeps the nearest candidate seen so far. *)
Lemma hiding_loop_nearest (self enemy : Robot.t) (obstacles : list Obstacle.t) :
  forall best,
    (forall c d, best = Some (c, d) -> d = norm (vsub c (Robot.position self))) ->
    match Robot.hiding_loop self enemy obstacles best with
    | None =>
        best = None
        /\ forall obs, In obs obstacles ->
                       Obstacle.position obs = Robot.position enemy
    | Some (c', d') =>
        d' = norm (vsub c' (Robot.position self))
        /\ (forall c d, best = Some (c, d) -> d' <= d)
        /\ forall obs, In obs obstacles ->
             Obstacle.position obs <> Robot.position enemy ->
             d' <= norm (vsub (hiding_candidate self enemy obs)
                              (Robot.position self))
    end.
Proof.
  induction obstacles as [| obs rest IH]; intros best Hbest.
  - cbn [Robot.hiding_loop]. destruct best as [[c d] |].
    + split; [apply (Hbest c d); reflexivity | split].
      * intros c0 d0 H. injection H as <- <-. lra.
      * intros o [].
    + split; [reflexivity | intros o []].
  - destruct (vec_eq_dec (Obstacle.position obs) (Robot.position enemy)) as [Heq | Hne].
    + rewrite hiding_loop_skip by exact Heq.
      specialize (IH best Hbest).
      destruct (Robot.hiding_loop self enemy rest best) as [[c' d'] |].
      * destruct IH as (Hd & Hb & Hall). split; [exact Hd | split; [exact Hb |]].
        intros o [<- | Ho] Hu; [contradiction | apply Hall; assumption].
      * destruct IH as (Hb & Hall). split; [exact Hb |].
        intros o [<- | Ho]; [exact Heq | apply Hall; exact Ho].
    + rewrite hiding_loop_step by exact Hne. cbv zeta.
      set (cand := hiding_candidate self enemy obs).
      set (dc := norm (vsub cand (Robot.position self))).
      destruct best as [[c0 d0] |].
      * destruct (dc <? d0) eqn:Elt.
        -- apply Rltb_true in Elt.
           assert (Hwf : forall c d, Some (cand, dc) = Some (c, d) ->
                                     d = norm (vsub c (Robot.position self))).
           { intros c d H. injection H as <- <-. reflexivity. }
           specialize (IH (Some (cand, dc)) Hwf).
           destruct (Robot.hiding_loop self enemy rest (Some (cand, dc)))
             as [[c' d'] |]; [| destruct IH as [IH _]; discriminate].
           destruct IH as (Hd & Hb & Hall).
           pose proof (Hb cand dc eq_refl) as Hle.
           split; [exact Hd | split].
           ++ intros c d H. injection H as <- <-. lra.
           ++ intros o [<- | Ho] Hu; [exact Hle | apply Hall; assumption].
        -- apply Rltb_false in Elt.
           specialize (IH (Some (c0, d0)) Hbest).
           destruct (Robot.hiding_loop self enemy rest (Some (c0, d0)))
             as [[c' d'] |]; [| destruct IH as [IH _]; discriminate].
           destruct IH as (Hd & Hb & Hall).
           pose proof (Hb c0 d0 eq_refl) as Hle.
           split; [exact Hd | split; [exact Hb |]].
           intros o [<- | Ho] Hu; [fold cand; fold dc; lra | apply Hall; assumption].
      * assert (Hwf : forall c d, Some (cand, dc) = Some (c, d) ->
                                  d = norm (vsub c (Robot.position self))).
        { intros c d H. injection H as <- <-. reflexivity. }
        specialize (IH (Some (cand, dc)) Hwf).
        destruct (Robot.hiding_loop self enemy rest (Some (cand, dc)))
          as [[c' d'] |]; [| destruct IH as [IH _]; discriminate].
        destruct IH as (Hd & Hb & Hall).
        pose proof (Hb cand dc eq_refl) as Hle.
        split; [exact Hd | split].
        -- intros c d H. discriminate.
        -- intros o [<- | Ho] Hu; [exact Hle | apply Hall; assumption].
Qed.

(** X4: [find_hiding_spot] falls back to the robot's own position exactly
    when no obstacle can be used, that is when the list is empty or every
    obstacle is centred at the enemy's position; otherwise it returns the
    candidate of an obstacle. *)
Theorem find_hiding_spot_fallback (self enemy : Robot.t)
    (obstacles : list Obstacle.t) :
  ((forall obs, In obs obstacles ->
                Obstacle.position obs = Robot.position enemy) ->
   Robot.find_hiding_spot self enemy obstacles = Robot.position self)
  /\ (Robot.hiding_loop self enemy obstacles None = None <->
      forall obs, In obs obstacles ->
                  Obstacle.position obs = Robot.position enemy).
Proof.
  split.
  - intros Hall. unfold Robot.find_hiding_spot.
    rewrite hiding_loop_unusable by exact Hall. reflexivity.
  - split.
    + intros Hnone.
      pose proof (hiding_loop_nearest self enemy obstacles None) as H.
      rewrite Hnone in H. apply H. intros c d Hc. discriminate.
    + apply hiding_loop_unusable.
Qed.

(** Two obstacles, both centred where the enemy stands. *)
Lemma find_hiding_spot_fallback_witness :
  Robot.find_hiding_spot (Robot.init (0, 0) (1, 0, 0)%Z)
    (Robot.init (10, 0) (0, 0, 1)%Z)
    [Obstacle.mk (10, 0) 6; Obstacle.mk (10, 0) 8]
  = (0, 0).
Proof.
  refine (proj1 (find_hiding_spot_fallback (Robot.init (0, 0) (1, 0, 0)%Z)
                   (Robot.init (10, 0) (0, 0, 1)%Z)
                   [Obstacle.mk (10, 0) 6; Obstacle.mk (10, 0) 8]) _).
  intros obs [<- | [<- | []]]; reflexivity.
Defined.

(** X5: the point returned by [find_hiding_spot] is at least as near to the
    robot as the candidate of every obstacle of the list that is not centred
    at the enemy's position. *)
Theorem find_hiding_spot_nearest (self enemy : Robot.t)
    (obstacles : list Obstacle.t) (obs : Obstacle.t) :
  In obs obstacles ->
  Obstacle.position obs <> Robot.position enemy ->
  norm (vsub (Robot.find_hiding_spot self enemy obstacles) (Robot.position self))
  <= norm (vsub (hiding_candidate self enemy obs) (Robot.position self)).
Proof.
  intros Hin Hne. unfold Robot.find_hiding_spot.
  pose proof (hiding_loop_nearest self enemy obstacles None) as H.
  destruct (Robot.hiding_loop self enemy obstacles None) as [[c d] |].
  - destruct H as (Hd & _ & Hall); [intros c0 d0 Hc; discriminate |].
    rewrite <- Hd. apply Hall; assumption.
  - destruct H as (_ & Hall); [intros c0 d0 Hc; discriminate |].
    elim Hne. apply Hall, Hin.
Qed.

(** Obstacles of edge 4 at (5, 0) and of edge 2 at (1, 0), the enemy at
    (10, 0): the spot is no farther than the candidate of the second. *)
Lemma find_hiding_spot_nearest_witness :
  norm (vsub (Robot.find_hiding_spot (Robot.init (1, -4) (1, 0, 0)%Z)
                (Robot.init (10, 0) (0, 0, 1)%Z)
                [Obstacle.mk (5, 0) 4; Obstacle.mk (1, 0) 2])
             (Robot.position (Robot.init (1, -4) (1, 0, 0)%Z)))
  <= norm (vsub (hiding_candidate (Robot.init (1, -4) (1, 0, 0)%Z)
                   (Robot.init (10, 0) (0, 0, 1)%Z) (Obstacle.mk (1, 0) 2))
                (Robot.position (Robot.init (1, -4) (1, 0, 0)%Z))).
Proof.
  apply (find_hiding_spot_nearest (Robot.init (1, -4) (1, 0, 0)%Z)
           (Robot.init (10, 0) (0, 0, 1)%Z)
           [Obstacle.mk (5, 0) 4; Obstacle.mk (1, 0) 2] (Obstacle.mk (1, 0) 2)).
  - right; left; reflexivity.
  - simpl. intros H. injection H as H. lra.
Defined.

(** X6: the candidate behind an obstacle lies on the line from the enemy
    through the centre of the obstacle, beyond the centre: for sizes that
    are not negative it is size_o/2 + size/2 + 1.0 away from the centre and
    farther from the enemy than the centre by that amount. *)
Theorem hiding_candidate_behind (self enemy : Robot.t) (obs : Obstacle.t) :
  Obstacle.position obs <> Robot.position enemy ->
  0 <= Obstacle.size obs ->
  0 <= Robot.size self ->
  let offset := Obstacle.size obs / 2 + Robot.size self / 2 + 1.0 in
  let to_obs := vsub (Obstacle.position obs) (Robot.position enemy) in
  let candidate := hiding_candidate self enemy obs in
  vsub candidate (Obstacle.position obs) = vscale to_obs (offset / norm to_obs)
  /\ norm (vsub candidate (Obstacle.position obs)) = offset
  /\ norm (vsub candidate (Robot.position enemy)) = norm to_obs + offset.
Proof.
  intros Hne Ho Hs offset to_obs candidate.
  assert (Hn : 0 < norm to_obs).
  { destruct (norm_nonneg to_obs) as [Hpos | Hz]; [exact Hpos |].
    symmetry in Hz. apply norm_zero_iff in Hz. contradiction. }
  assert (Hoff : 0 < offset) by (unfold offset; lra).
  assert (E1 : vsub candidate (Obstacle.position obs)
               = vscale to_obs (offset / norm to_obs)).
  { unfold candidate, hiding_candidate; cbv zeta. fold to_obs. fold offset.
    unfold vsub, vadd, vscale, vdiv, vx, vz; cbn [fst snd].
    f_equal; field; lra. }
  assert (E2 : vsub candidate (Robot.position enemy)
               = vscale to_obs (1 + offset / norm to_obs)).
  { unfold candidate, hiding_candidate; cbv zeta. fold to_obs. fold offset.
    generalize (norm to_obs) Hn. intros n Hn'.
    unfold to_obs, vsub, vadd, vscale, vdiv, vx, vz; cbn [fst snd].
    f_equal; field; lra. }
  split; [exact E1 | split].
  - rewrite E1, norm_vscale.
    rewrite <- (Rabs_right (norm to_obs)) at 2 by lra.
    rewrite <- Rabs_mult.
    replace (offset / norm to_obs * norm to_obs) with offset by (field; lra).
    apply Rabs_right. lra.
  - rewrite E2, norm_vscale.
    rewrite <- (Rabs_right (norm to_obs)) at 2 by lra.
    rewrite <- Rabs_mult.
    replace ((1 + offset / norm to_obs) * norm to_obs)
      with (norm to_obs + offset) by (field; lra).
    apply Rabs_right. lra.
Qed.

(** The obstacle of edge 4 at (5, 0), the enemy at (10, 0): the candidate
    is 4 away from (5, 0) and 9 away from the enemy. *)
Lemma hiding_candidate_behind_witness :
  norm (vsub (hiding_candidate (Robot.init (0, 0) (1, 0, 0)%Z)
                (Robot.init (10, 0) (0, 0, 1)%Z) (Obstacle.mk (5, 0) 4))
             (5, 0))
  = 4 / 2 + 2.0 / 2 + 1.0.
Proof.
  refine (proj1 (proj2 (hiding_candidate_behind (Robot.init (0, 0) (1, 0, 0)%Z)
                          (Robot.init (10, 0) (0, 0, 1)%Z)
                          (Obstacle.mk (5, 0) 4) _ _ _))).
  - simpl. intros H. injection H as H. lra.
  - simpl. lra.
  - simpl. lra.
Defined.

(** ** Visibility and the obstacle list *)

Lemma can_see_loop_app (p1 p2 : vec) (l1 l2 : list Obstacle.t) :
  Robot.can_see_loop p1 p2 (l1 ++ l2)
  = Robot.can_see_loop p1 p2 l1 && Robot.can_see_loop p1 p2 l2.
Proof.
  induction l1 as [| obs rest IH]; cbn [Robot.can_see_loop app]; [reflexivity |].
  destruct (line_intersects_box p1 p2 (Obstacle.position obs) (Obstacle.size obs));
    [reflexivity | exact IH].
Qed.

(** X7: the enemy is visible exactly when the segment test fails for every
    obstacle of the list; for two lists put together the robot sees the
    enemy when it sees it past each of them, so more obstacles never make
    an enemy visible. *)
Theorem can_see_all_obstacles (self enemy : Robot.t) (l1 l2 : list Obstacle.t) :
  (Robot.can_see self enemy l1 = true <->
   forall obs, In obs l1 ->
     line_intersects_box (Robot.position self) (Robot.position enemy)
       (Obstacle.position obs) (Obstacle.size obs) = false)
  /\ Robot.can_see self enemy (l1 ++ l2)
     = Robot.can_see self enemy l1 && Robot.can_see self enemy l2.
Proof.
  split; [| apply can_see_loop_app].
  unfold Robot.can_see; cbv zeta. split.
  - intros Hsee obs Hin. apply not_true_is_false. intros Hbox.
    assert (Hf : Robot.can_see_loop (Robot.position self) (Robot.position enemy) l1
                 = false) by (apply can_see_loop_false; exists obs; auto).
    congruence.
  - intros Hall. apply not_false_is_true. intros Hf.
    apply can_see_loop_false in Hf. destruct Hf as (obs & Hin & Hbox).
    rewrite (Hall obs Hin) in Hbox. discriminate.
Qed.

(** ** What the segment test sees and what it misses *)

Lemma sample_parameter (i : nat) :
  (i <= steps)%nat -> 0 <= INR i / INR steps <= 1.
Proof.
  intros Hi.
  assert (0 <= INR i) by apply pos_INR.
  assert (INR i <= INR steps) by (apply le_INR; exact Hi).
  assert (0 < INR steps) by (unfold steps; simpl; lra).
  split.
  - apply Rmult_le_pos; [assumption | left; apply Rinv_0_lt_compat; assumption].
  - apply (Rmult_le_reg_r (INR steps)); [assumption |].
    unfold Rdiv. rewrite Rmult_assoc, Rinv_l by lra. lra.
Qed.

Lemma line_intersects_box_sample (p1 p2 box_center : vec) (box_size : R) :
  line_intersects_box p1 p2 box_center box_size = true ->
  exists i, (i <= steps)%nat
    /\ in_box (vx box_center - box_size / 2) (vx box_center + box_size / 2)
              (vz box_center - box_size / 2) (vz box_center + box_size / 2)
              (sample_point p1 p2 i).
Proof.
  unfold line_intersects_box; cbv zeta.
  replace (box_size / 2.0) with (box_size / 2) by lra.
  match goal with |- (if ?c then _ else _) = _ -> _ => destruct c end;
    [discriminate |].
  intros H. apply sample_loop_true in H. destruct H as (i & Hin & Hbox).
  exists i. split; [apply in_seq in Hin; lia | exact Hbox].
Qed.

(** X8: when [line_intersects_box] answers [True], a point of the segment
    from [p1] to [p2] lies in the closed box: the test reports no
    intersection that does not exist. *)
Theorem line_intersects_box_sound (p1 p2 box_center : vec) (box_size : R) :
  line_intersects_box p1 p2 box_center box_size = true ->
  exists t, 0 <= t <= 1
    /\ in_box (vx box_center - box_size / 2) (vx box_center + box_size / 2)
              (vz box_center - box_size / 2) (vz box_center + box_size / 2)
              (vadd p1 (vscale (vsub p2 p1) t)).
Proof.
  intros H. apply line_intersects_box_sample in H. destruct H as (i & Hi & Hbox).
  exists (INR i / INR steps). split; [apply sample_parameter, Hi | exact Hbox].
Qed.

(** The segment from (0, 0) to (10, 0) and the box of edge 4 at (5, 0). *)
Lemma line_intersects_box_sound_witness :
  exists t, 0 <= t <= 1
    /\ in_box (5 - 4 / 2) (5 + 4 / 2) (0 - 4 / 2) (0 + 4 / 2)
              (vadd (0, 0) (vscale (vsub (10, 0) (0, 0)) t)).
Proof.
  apply (line_intersects_box_sound (0, 0) (10, 0) (5, 0) 4).
  apply (line_intersects_box_hit _ _ _ _ 10); [unfold steps; lia |].
  unfold in_box, sample_point, vadd, vscale, vsub, steps, vx, vz; simpl. lra.
Defined.

(** X9: for a segment reduced to one point, and so for two robots at the
    same place, the test is the test that the point is in the closed box. *)
Theorem line_intersects_box_point (p box_center : vec) (box_size : R) :
  line_intersects_box p p box_center box_size = true
  <-> in_box (vx box_center - box_size / 2) (vx box_center + box_size / 2)
             (vz box_center - box_size / 2) (vz box_center + box_size / 2) p.
Proof.
  split.
  - intros H. apply line_intersects_box_sample in H. destruct H as (i & Hi & Hbox).
    replace (sample_point p p i) with p in Hbox; [exact Hbox |].
    unfold sample_point, vadd, vscale, vsub, vx, vz.
    destruct p as [x z]; cbn [fst snd]. f_equal; ring.
  - intros Hbox. apply (line_intersects_box_hit _ _ _ _ 0); [lia |].
    rewrite sample_point_first. exact Hbox.
Qed.

(** X10: the test looks at 21 points only.  For a segment along the x axis
    with samples [h] apart, a box centred on the segment that lies strictly
    between two neighbouring samples is missed: the answer is [False]
    although the centre of the box is a point of the segment. *)
Theorem line_intersects_box_blind_spot (a z0 h c s : R) (k : nat) :
  0 < h -> 0 < s -> (k < steps)%nat ->
  a + h * INR k < c - s / 2 ->
  c + s / 2 < a + h * (INR k + 1) ->
  line_intersects_box (a, z0) (a + INR steps * h, z0) (c, z0) s = false
  /\ (exists t, 0 <= t <= 1
        /\ vadd (a, z0) (vscale (vsub (a + INR steps * h, z0) (a, z0)) t) = (c, z0))
  /\ in_box (c - s / 2) (c + s / 2) (z0 - s / 2) (z0 + s / 2) (c, z0).
Proof.
  intros Hh Hs Hk Hlo Hhi.
  assert (Hst : 0 < INR steps) by (unfold steps; simpl; lra).
  split; [| split].
  - apply not_true_is_false. intros H.
    apply line_intersects_box_sample in H. destruct H as (i & Hi & Hl & Hr & _).
    unfold sample_point, vadd, vscale, vsub, vx, vz in Hl, Hr; cbn [fst snd] in Hl, Hr.
    replace (a + (a + INR steps * h - a) * (INR i / INR steps))
      with (a + h * INR i) in Hl, Hr by (field; lra).
    destruct (Nat.le_gt_cases i k) as [Hle | Hgt].
    + apply le_INR in Hle. nra.
    + assert (Hge : INR k + 1 <= INR i).
      { rewrite <- S_INR. apply le_INR. lia. }
      nra.
  - assert (Hk' : INR k + 1 <= INR steps).
    { rewrite <- S_INR. apply le_INR. lia. }
    assert (Hk0 : 0 <= INR k) by apply pos_INR.
    exists ((c - a) / (INR steps * h)). split.
    + assert (Hpos : 0 < INR steps * h) by (apply Rmult_lt_0_compat; lra).
      split.
      * apply Rmult_le_pos; [nra | left; apply Rinv_0_lt_compat; exact Hpos].
      * apply (Rmult_le_reg_r (INR steps * h)); [exact Hpos |].
        unfold Rdiv. rewrite Rmult_assoc, Rinv_l by lra. nra.
    + unfold vadd, vscale, vsub, vx, vz; cbn [fst snd]. f_equal; field; lra.
  - unfold in_box, vx, vz; cbn [fst snd]. lra.
Qed.

(** The segment from (0, 0) to (20, 0), sampled at the whole numbers, and
    a box of edge 0.5 centred at (7.5, 0). *)
Lemma line_intersects_box_blind_spot_witness :
  line_intersects_box (0, 0) (0 + INR steps * 1, 0) (7.5, 0) 0.5 = false.
Proof.
  refine (proj1 (line_intersects_box_blind_spot 0 0 1 7.5 0.5 7 _ _ _ _ _)).
  - lra.
  - lra.
  - unfold steps; lia.
  - simpl. lra.
  - simpl. lra.
Defined.

(** ** Collisions and the obstacle list *)

Lemma collides_app (pos : vec) (l1 l2 : list Obstacle.t) (s : R) :
  collides_with_obstacles pos (l1 ++ l2) s
  = collides_with_obstacles pos l1 s || collides_with_obstacles pos l2 s.
Proof.
  induction l1 as [| obs rest IH]; cbn [collides_with_obstacles app]; [reflexivity |].
  cbv zeta. match goal with |- (if ?c then _ else _) = _ => destruct c end;
    [reflexivity | exact IH].
Qed.

(** X11: a position that collides keeps colliding when obstacles are added
    or when the object gets larger; on two lists put together
    [collides_with_obstacles] is the disjunction of its answers. *)
Theorem collides_monotone (pos : vec) (l1 l2 : list Obstacle.t) (s s' : R) :
  collides_with_obstacles pos (l1 ++ l2) s
  = collides_with_obstacles pos l1 s || collides_with_obstacles pos l2 s
  /\ ((forall obs, In obs l1 -> In obs l2) -> s <= s' ->
      collides_with_obstacles pos l1 s = true ->
      collides_with_obstacles pos l2 s' = true).
Proof.
  split; [apply collides_app |].
  intros Hincl Hs Hc. apply collides_iff in Hc. destruct Hc as (obs & Hin & Hx & Hz).
  apply collides_iff. exists obs. split; [apply Hincl, Hin |].
  split; lra.
Qed.

(** A robot of edge 2 at (2.5, 0) collides with the obstacle of edge 4 at
    (5, 0); so does an object of edge 3 when a second obstacle is added. *)
Lemma collides_monotone_witness :
  collides_with_obstacles (2.5, 0) [Obstacle.mk (20, 20) 6; Obstacle.mk (5, 0) 4] 3
  = true.
Proof.
  refine (proj2 (collides_monotone (2.5, 0) [Obstacle.mk (5, 0) 4]
                   [Obstacle.mk (20, 20) 6; Obstacle.mk (5, 0) 4] 2 3) _ _ _).
  - intros obs [<- | []]. right; left; reflexivity.
  - lra.
  - eval_cmp.
Defined.

(** X12: an object of positive size whose centre is in the closed square
    of an obstacle collides with it; a robot that does not collide is
    therefore outside the squares that the segment test looks at. *)
Theorem inside_footprint_collides (pos : vec) (obstacles : list Obstacle.t)
    (obs : Obstacle.t) (obj_size : R) :
  In obs obstacles ->
  in_footprint pos obs ->
  0 < obj_size ->
  collides_with_obstacles pos obstacles obj_size = true.
Proof.
  intros Hin (Hl & Hr & Ht & Hb) Hs.
  apply collides_iff. exists obs. split; [exact Hin |].
  split; apply Rabs_def1; lra.
Qed.

(** A robot on the left edge of the obstacle of edge 4 at (5, 0). *)
Lemma inside_footprint_collides_witness :
  collides_with_obstacles (3, 0) [Obstacle.mk (20, 20) 6; Obstacle.mk (5, 0) 4] 2.0
  = true.
Proof.
  apply (inside_footprint_collides (3, 0)
           [Obstacle.mk (20, 20) 6; Obstacle.mk (5, 0) 4] (Obstacle.mk (5, 0) 4) 2.0).
  - right; left; reflexivity.
  - unfold in_footprint, vx, vz; simpl. lra.
  - lra.
Defined.

(** ** Random positions *)

Lemma uniform_range (a b u : R) :
  a < b -> unit_draw u -> a <= uniform a b u < b.
Proof. unfold unit_draw, uniform. intros Hab [H0 H1]. split; nra. Qed.

Lemma get_random_position_inv (obstacles : list Obstacle.t) (rng : list R) :
  forall p rest,
    get_random_position obstacles rng = Some (p, rest) ->
    exists pairs u1 u2,
      rng = draws pairs ++ u1 :: u2 :: rest
      /\ Forall (rejected obstacles) pairs
      /\ p = random_position u1 u2.
Proof.
  induction rng as [| u | u1 u2 l IH] using oracle_pair_ind; intros p rest H;
    cbn [get_random_position] in H; try discriminate.
  cbv zeta in H. fold (random_position u1 u2) in H.
  destruct (collides_with_obstacles (random_position u1 u2) obstacles 2.0) eqn:E;
    cbn [negb] in H.
  - destruct (IH p rest H) as (pairs & v1 & v2 & -> & Hrej & ->).
    exists ((u1, u2) :: pairs), v1, v2. split; [reflexivity | split; [| reflexivity]].
    constructor; [exact E | exact Hrej].
  - injection H as <- <-. exists [], u1, u2. repeat split. constructor.
Qed.

(** X13: [get_random_position] returns exactly the first pair of draws
    whose position does not collide (for the edge 2.0): the pairs before it
    are all rejected, and the oracle is left just after it. *)
Theorem get_random_position_first (obstacles : list Obstacle.t) (rng : list R)
    (p : vec) (rest : list R) :
  get_random_position obstacles rng = Some (p, rest)
  <-> exists pairs u1 u2,
        rng = draws pairs ++ u1 :: u2 :: rest
        /\ Forall (rejected obstacles) pairs
        /\ p = random_position u1 u2
        /\ collides_with_obstacles p obstacles 2.0 = false.
Proof.
  split.
  - intros H. destruct (get_random_position_inv _ _ _ _ H)
      as (pairs & u1 & u2 & Hrng & Hrej & Hp).
    exists pairs, u1, u2. repeat split; try assumption.
    exact (get_random_position_free _ _ _ _ H).
  - intros (pairs & u1 & u2 & -> & Hrej & -> & Hfree).
    apply get_random_position_first_free; assumption.
Qed.

Lemma Forall_draws (P : R -> Prop) (pairs : list (R * R)) (l : list R) :
  Forall P (draws pairs ++ l) -> Forall P l.
Proof.
  induction pairs as [| [u1 u2] pairs IH]; cbn [draws flat_map fst snd app];
    [auto |].
  intros H. inversion H as [| ? ? _ H']; subst.
  inversion H' as [| ? ? _ H'']; subst. apply IH, H''.
Qed.

Lemma get_random_position_range (obstacles : list Obstacle.t)
    (rng : list R) (p : vec) (rest : list R) :
  Forall unit_draw rng ->
  get_random_position obstacles rng = Some (p, rest) ->
  (- SIMULATION_AREA <= vx p < SIMULATION_AREA
   /\ - SIMULATION_AREA <= vz p < SIMULATION_AREA)
  /\ Forall unit_draw rest.
Proof.
  intros Hunit H.
  destruct (get_random_position_inv _ _ _ _ H) as (pairs & u1 & u2 & -> & _ & ->).
  apply Forall_draws in Hunit.
  inversion Hunit as [| ? ? Hu1 Hunit']; subst.
  inversion Hunit' as [| ? ? Hu2 Hrest]; subst.
  assert (Harea : - SIMULATION_AREA < SIMULATION_AREA)
    by (unfold SIMULATION_AREA; lra).
  split; [| exact Hrest].
  unfold random_position, vx, vz; cbn [fst snd].
  split; apply uniform_range; assumption.
Qed.

(** X14: with draws in [0, 1), the position returned by
    [get_random_position] is in the arena, -50 <= x < 50 and -50 <= z < 50,
    and what is left of the oracle is in [0, 1) as well. *)
Theorem get_random_position_in_arena (obstacles : list Obstacle.t)
    (rng : list R) (p : vec) (rest : list R) :
  Forall unit_draw rng ->
  get_random_position obstacles rng = Some (p, rest) ->
  (- SIMULATION_AREA <= vx p < SIMULATION_AREA
   /\ - SIMULATION_AREA <= vz p < SIMULATION_AREA)
  /\ Forall unit_draw rest.
Proof. apply get_random_position_range. Qed.

(** The obstacle of edge 10 at (0, 0): the draws 0.5, 0.5 give (0, 0) and
    are rejected, the draws 0.9, 0.9 give (40, 40). *)
Lemma get_random_position_in_arena_witness :
  (- SIMULATION_AREA <= vx (random_position 0.9 0.9) < SIMULATION_AREA
   /\ - SIMULATION_AREA <= vz (random_position 0.9 0.9) < SIMULATION_AREA)
  /\ Forall unit_draw [0.7].
Proof.
  apply (get_random_position_in_arena [Obstacle.mk (0, 0) 10]
           [0.5; 0.5; 0.9; 0.9; 0.7] (random_position 0.9 0.9) [0.7]).
  - repeat constructor; unfold unit_draw; lra.
  - apply (get_random_position_first_free [Obstacle.mk (0, 0) 10]
             [(0.5, 0.5)] 0.9 0.9 [0.7]).
    + constructor; [| constructor].
      unfold rejected, random_position, uniform, SIMULATION_AREA. eval_cmp.
    + unfold random_position, uniform, SIMULATION_AREA. eval_cmp.
Defined.

(** ** The obstacles and the robots that [main] creates *)

Lemma create_obstacles_inv (count : nat) :
  forall acc rng obstacles rest,
    Forall unit_draw rng ->
    create_obstacles count acc rng = Some (obstacles, rest) ->
    exists new,
      obstacles = acc ++ new
      /\ length new = count
      /\ Forall obstacle_in_range new
      /\ length rng = (3 * count + length rest)%nat
      /\ Forall unit_draw rest.
Proof.
  induction count as [| count IH]; intros acc rng obstacles rest Hunit H.
  - cbn [create_obstacles] in H. injection H as <- <-.
    exists []. rewrite app_nil_r. repeat split; [constructor | exact Hunit].
  - cbn [create_obstacles] in H.
    destruct rng as [| ux [| uz [| us rng']]]; try discriminate.
    cbv zeta in H.
    inversion Hunit as [| ? ? Hx Hunit1]; subst.
    inversion Hunit1 as [| ? ? Hz Hunit2]; subst.
    inversion Hunit2 as [| ? ? Hs Hunit3]; subst.
    destruct (IH _ _ _ _ Hunit3 H) as (new & -> & Hlen & Hrange & Hrng & Hrest).
    exists (Obstacle.mk
              (uniform (- SIMULATION_AREA + 10) (SIMULATION_AREA - 10) ux,
               uniform (- SIMULATION_AREA + 10) (SIMULATION_AREA - 10) uz)
              (uniform 5 10 us) :: new).
    split; [rewrite <- app_assoc; reflexivity |].
    split; [cbn [length]; lia |].
    split; [| split; [cbn [length]; lia | exact Hrest]].
    constructor; [| exact Hrange].
    unfold obstacle_in_range, vx, vz; cbn [Obstacle.position Obstacle.size fst snd].
    assert (H40 : - SIMULATION_AREA + 10 < SIMULATION_AREA - 10)
      by (unfold SIMULATION_AREA; lra).
    pose proof (uniform_range _ _ ux H40 Hx) as Bx.
    pose proof (uniform_range _ _ uz H40 Hz) as Bz.
    assert (H510 : 5 < 10) by lra.
    pose proof (uniform_range _ _ us H510 Hs) as Bs.
    unfold uniform, SIMULATION_AREA in *. lra.
Qed.

Lemma create_obstacles_enough (count : nat) :
  forall acc rng,
    (3 * count <= length rng)%nat ->
    exists obstacles rest, create_obstacles count acc rng = Some (obstacles, rest).
Proof.
  induction count as [| count IH]; intros acc rng Hlen.
  - exists acc, rng. reflexivity.
  - destruct rng as [| ux [| uz [| us rng']]]; cbn [length] in Hlen; try lia.
    cbn [create_obstacles]. cbv zeta. apply IH. lia.
Qed.

Lemma create_obstacles_count (count : nat) :
  forall acc rng obstacles rest,
    create_obstacles count acc rng = Some (obstacles, rest) ->
    length obstacles = (length acc + count)%nat.
Proof.
  induction count as [| count IH]; intros acc rng obstacles rest H.
  - cbn [create_obstacles] in H. injection H as <- _. lia.
  - cbn [create_obstacles] in H.
    destruct rng as [| ux [| uz [| us rng']]]; try discriminate.
    cbv zeta in H. apply IH in H. rewrite H, length_app. cbn [length]. lia.
Qed.

(** X15: from 15 draws in [0, 1) the loop of [main] makes 5 obstacles, each
    with its centre in -40 <= x, z < 40 and its edge in 5 <= size <= 10, and
    it uses exactly these 15 draws. *)
Theorem create_obstacles_in_range (rng : list R) :
  Forall unit_draw rng ->
  (15 <= length rng)%nat ->
  exists obstacles rest,
    create_obstacles NUM_OBSTACLES [] rng = Some (obstacles, rest)
    /\ length obstacles = 5%nat
    /\ Forall obstacle_in_range obstacles
    /\ length rng = (15 + length rest)%nat
    /\ Forall unit_draw rest.
Proof.
  intros Hunit Hlen.
  destruct (create_obstacles_enough NUM_OBSTACLES [] rng) as (obstacles & rest & H);
    [unfold NUM_OBSTACLES; lia |].
  exists obstacles, rest. split; [exact H |].
  destruct (create_obstacles_inv _ _ _ _ _ Hunit H)
    as (new & -> & Hn & Hrange & Hrng & Hrest).
  unfold NUM_OBSTACLES in *. cbn [app]. repeat split; assumption.
Qed.

(** Sixteen draws: fifteen are used, one is left. *)
Lemma create_obstacles_in_range_witness :
  exists obstacles rest,
    create_obstacles NUM_OBSTACLES []
      [0.5; 0.9; 0; 0.1; 0.9; 0.2; 0.2; 0.9; 0.4; 0.3; 0.9; 0.6; 0.4; 0.9; 0.8; 0.7]
    = Some (obstacles, rest)
    /\ length obstacles = 5%nat
    /\ Forall obstacle_in_range obstacles
    /\ length
         [0.5; 0.9; 0; 0.1; 0.9; 0.2; 0.2; 0.9; 0.4; 0.3; 0.9; 0.6; 0.4; 0.9; 0.8; 0.7]
       = (15 + length rest)%nat
    /\ Forall unit_draw rest.
Proof.
  apply (create_obstacles_in_range
           [0.5; 0.9; 0; 0.1; 0.9; 0.2; 0.2; 0.9; 0.4; 0.3; 0.9; 0.6; 0.4; 0.9; 0.8; 0.7]).
  - repeat constructor; unfold unit_draw; lra.
  - cbn [length]. lia.
Defined.

Lemma init_clear (obstacles : list Obstacle.t) (p : vec) (c : Z * Z * Z) :
  collides_with_obstacles p obstacles 2.0 = false ->
  clear obstacles (Robot.init p c).
Proof. intros H. exact H. Qed.

(** X16: what [main] has built when its loop starts: 5 obstacles, and two
    robots of size 2.0 and speed 0.2, red and blue, neither of which
    collides with an obstacle; with draws in [0, 1) the obstacles are in
    their range and the robots in the arena. *)
Theorem setup_is_valid (rng : list R) (obstacles : list Obstacle.t) (w : World) :
  setup rng = Some (obstacles, w) ->
  (length obstacles = 5%nat
   /\ clear obstacles (robot1 w) /\ clear obstacles (robot2 w)
   /\ Robot.size (robot1 w) = 2.0 /\ Robot.size (robot2 w) = 2.0
   /\ Robot.speed (robot1 w) = 0.2 /\ Robot.speed (robot2 w) = 0.2
   /\ Robot.color (robot1 w) = (1, 0, 0)%Z /\ Robot.color (robot2 w) = (0, 0, 1)%Z)
  /\ (Forall unit_draw rng ->
      Forall obstacle_in_range obstacles
      /\ - SIMULATION_AREA <= vx (Robot.position (robot1 w)) < SIMULATION_AREA
      /\ - SIMULATION_AREA <= vz (Robot.position (robot1 w)) < SIMULATION_AREA
      /\ - SIMULATION_AREA <= vx (Robot.position (robot2 w)) < SIMULATION_AREA
      /\ - SIMULATION_AREA <= vz (Robot.position (robot2 w)) < SIMULATION_AREA).
Proof.
  unfold setup. intros H.
  destruct (create_obstacles NUM_OBSTACLES [] rng) as [[obs rng0] |] eqn:E0;
    [| discriminate].
  destruct (get_random_position obs rng0) as [[p1 rng1] |] eqn:E1; [| discriminate].
  destruct (get_random_position obs rng1) as [[p2 rng2] |] eqn:E2; [| discriminate].
  injection H as <- <-. cbn [robot1 robot2].
  split.
  - split.
    + apply create_obstacles_count in E0. exact E0.
    + split; [apply init_clear, (get_random_position_free _ _ _ _ E1) |].
      split; [apply init_clear, (get_random_position_free _ _ _ _ E2) |].
      repeat split.
  - intros Hunit.
    destruct (create_obstacles_inv _ _ _ _ _ Hunit E0)
      as (new & -> & _ & Hrange & _ & Hunit0).
    destruct (get_random_position_range _ _ _ _ Hunit0 E1) as ((Hx1 & Hz1) & Hunit1).
    destruct (get_random_position_range _ _ _ _ Hunit1 E2) as ((Hx2 & Hz2) & _).
    cbn [app Robot.init Robot.position]. repeat split; try assumption; lra.
Qed.

Lemma get_random_position_accepts (obstacles : list Obstacle.t) (u1 u2 : R)
    (rng : list R) :
  collides_with_obstacles (random_position u1 u2) obstacles 2.0 = false ->
  get_random_position obstacles (u1 :: u2 :: rng)
  = Some (random_position u1 u2, rng).
Proof. apply (get_random_position_first_free obstacles [] u1 u2 rng). constructor. Qed.

(** Five obstacles along z = 32, then the robots at (0, -40) and
    (10, -40); one draw is left. *)
Lemma setup_is_valid_witness :
  exists obstacles w,
    setup [0.5; 0.9; 0; 0.1; 0.9; 0.2; 0.2; 0.9; 0.4; 0.3; 0.9; 0.6; 0.4; 0.9; 0.8;
           0.5; 0.1; 0.6; 0.1; 0.7] = Some (obstacles, w)
    /\ length obstacles = 5%nat
    /\ clear obstacles (robot1 w) /\ clear obstacles (robot2 w)
    /\ random w = [0.7].
Proof.
  eassert (H : setup [0.5; 0.9; 0; 0.1; 0.9; 0.2; 0.2; 0.9; 0.4; 0.3; 0.9; 0.6;
                      0.4; 0.9; 0.8; 0.5; 0.1; 0.6; 0.1; 0.7] = Some (_, _)).
  { unfold setup, NUM_OBSTACLES. cbn [create_obstacles app]. cbv zeta.
    rewrite get_random_position_accepts.
    - rewrite get_random_position_accepts; [reflexivity |].
      apply not_true_is_false. intros Hc. apply collides_iff in Hc.
      destruct Hc as (o & Hin & _ & Hz). cbn [In] in Hin.
      repeat (destruct Hin as [<- | Hin];
              [revert Hz; unfold random_position, uniform, SIMULATION_AREA, vz;
               cbn [snd Obstacle.position Obstacle.size]; unfold Rabs;
               destruct (Rcase_abs _); lra |]).
      contradiction.
    - apply not_true_is_false. intros Hc. apply collides_iff in Hc.
      destruct Hc as (o & Hin & _ & Hz). cbn [In] in Hin.
      repeat (destruct Hin as [<- | Hin];
              [revert Hz; unfold random_position, uniform, SIMULATION_AREA, vz;
               cbn [snd Obstacle.position Obstacle.size]; unfold Rabs;
               destruct (Rcase_abs _); lra |]).
      contradiction. }
  eexists. eexists. split; [exact H |].
  destruct (proj1 (setup_is_valid _ _ _ H)) as (Hlen & Hc1 & Hc2 & _).
  split; [exact Hlen | split; [exact Hc1 | split; [exact Hc2 | reflexivity]]].
Defined.

(** ** The frames *)

Lemma update_clear (obstacles : list Obstacle.t) (self enemy : Robot.t) :
  clear obstacles self -> clear obstacles (Robot.update self enemy obstacles).
Proof.
  unfold clear, Robot.update. intros Hc.
  destruct (move_towards_cases self (Robot.choose_target self enemy obstacles)
              obstacles) as [-> | [-> Hfree]]; assumption.
Qed.

Lemma update_frame (obstacles : list Obstacle.t) (self enemy : Robot.t) :
  Robot.color (Robot.update self enemy obstacles) = Robot.color self
  /\ Robot.speed (Robot.update self enemy obstacles) = Robot.speed self
  /\ Robot.size (Robot.update self enemy obstacles) = Robot.size self.
Proof.
  unfold Robot.update.
  destruct (move_towards_cases self (Robot.choose_target self enemy obstacles)
              obstacles) as [-> | [-> _]]; repeat split.
Qed.

Lemma tick_keeps_clear (obstacles : list Obstacle.t) (w w' : World) :
  robots_clear obstacles w ->
  tick obstacles w = Some w' ->
  robots_clear obstacles w'
  /\ Robot.color (robot1 w') = Robot.color (robot1 w)
  /\ Robot.color (robot2 w') = Robot.color (robot2 w)
  /\ Robot.speed (robot1 w') = Robot.speed (robot1 w)
  /\ Robot.speed (robot2 w') = Robot.speed (robot2 w).
Proof.
  intros (Hc1 & Hc2 & Hs1 & Hs2). rewrite tick_unfold.
  unfold update_robots; cbv zeta; cbn [fst snd].
  set (m1 := Robot.update (robot1 w) (robot2 w) obstacles).
  set (m2 := Robot.update (robot2 w) m1 obstacles).
  destruct (update_frame obstacles (robot1 w) (robot2 w)) as (Fc1 & Fv1 & Fs1).
  destruct (update_frame obstacles (robot2 w) m1) as (Fc2 & Fv2 & Fs2).
  fold m1 in Fc1, Fv1, Fs1. fold m2 in Fc2, Fv2, Fs2.
  pose proof (update_clear obstacles (robot1 w) (robot2 w) Hc1) as Hm1.
  pose proof (update_clear obstacles (robot2 w) m1 Hc2) as Hm2.
  fold m1 in Hm1. fold m2 in Hm2.
  unfold reset_on_collision.
  destruct (norm (vsub (Robot.position m1) (Robot.position m2)) <? Robot.size m1).
  - destruct (get_random_position obstacles (random w)) as [[p1 rng1] |] eqn:E1;
      [| discriminate].
    destruct (get_random_position obstacles rng1) as [[p2 rng2] |] eqn:E2;
      [| discriminate].
    intros H. injection H as <-. cbn.
    pose proof (get_random_position_free _ _ _ _ E1) as F1.
    pose proof (get_random_position_free _ _ _ _ E2) as F2.
    unfold robots_clear, clear. cbn.
    rewrite Fs1, Fs2, Hs1, Hs2.
    repeat split; assumption.
  - intros H. injection H as <-.
    unfold robots_clear. cbn [robot1 robot2].
    repeat split; try assumption; congruence.
Qed.

(** X17: robots that have size 2.0 and collide with no obstacle stay so
    through every number of frames, steps and resets alike; their colours
    and speeds never change. *)
Theorem frames_keep_robots_clear (n : nat) (obstacles : list Obstacle.t)
    (w w' : World) :
  robots_clear obstacles w ->
  frames n obstacles w = Some w' ->
  robots_clear obstacles w'
  /\ Robot.color (robot1 w') = Robot.color (robot1 w)
  /\ Robot.color (robot2 w') = Robot.color (robot2 w)
  /\ Robot.speed (robot1 w') = Robot.speed (robot1 w)
  /\ Robot.speed (robot2 w') = Robot.speed (robot2 w).
Proof.
  revert w. induction n as [| n IH]; intros w Hw H; cbn [frames] in H.
  - injection H as <-. repeat split; apply Hw.
  - destruct (tick obstacles w) as [w1 |] eqn:E; [| discriminate].
    destruct (tick_keeps_clear _ _ _ Hw E) as (Hw1 & C1 & C2 & V1 & V2).
    destruct (IH w1 Hw1 H) as (Hw' & C1' & C2' & V1' & V2').
    split; [exact Hw' |]. repeat split; congruence.
Qed.

Lemma line_intersects_box_above (p1 p2 box_center : vec) (box_size : R) :
  vz p1 < vz box_center - box_size / 2 ->
  vz p2 < vz box_center - box_size / 2 ->
  line_intersects_box p1 p2 box_center box_size = false.
Proof.
  intros H1 H2. unfold line_intersects_box; cbv zeta.
  replace (box_size / 2.0) with (box_size / 2) by lra.
  apply Rltb_true in H1, H2. rewrite H1, H2.
  cbn [andb]. rewrite !orb_true_r. reflexivity.
Qed.

Lemma update_in_sight (self enemy : Robot.t) (obstacles : list Obstacle.t) :
  Robot.can_see self enemy obstacles = true ->
  0.01 < norm (vsub (Robot.position enemy) (Robot.position self)) ->
  collides_with_obstacles (new_position self (Robot.position enemy)) obstacles
    (Robot.size self) = false ->
  Robot.update self enemy obstacles
  = Robot.set_position self (new_position self (Robot.position enemy)).
Proof.
  intros Hsee Hd Hfree. unfold Robot.update, Robot.choose_target.
  rewrite Hsee. apply move_towards_moves; assumption.
Qed.

(** The obstacle of edge 6 at (0, 20), the robots at (0, 0) and (10, 0):
    after one frame they are at (0.2, 0) and (9.8, 0). *)
Lemma frames_keep_robots_clear_witness :
  robots_clear [Obstacle.mk (0, 20) 6]
    (mkWorld (Robot.set_position (Robot.init (0, 0) (1, 0, 0)%Z) (0.2, 0))
             (Robot.set_position (Robot.init (10, 0) (0, 0, 1)%Z) (9.8, 0)) []).
Proof.
  refine (proj1 (frames_keep_robots_clear 1 [Obstacle.mk (0, 20) 6]
                   (mkWorld (Robot.init (0, 0) (1, 0, 0)%Z)
                            (Robot.init (10, 0) (0, 0, 1)%Z) []) _ _ _)).
  - unfold robots_clear, clear. cbn [robot1 robot2].
    repeat split; eval_cmp.
  - cbn [frames]. rewrite tick_unfold. unfold update_robots; cbv zeta.
    cbn [fst snd robot1 robot2 random].
    set (r1 := Robot.init (0, 0) (1, 0, 0)%Z).
    set (r2 := Robot.init (10, 0) (0, 0, 1)%Z).
    set (obstacles := [Obstacle.mk (0, 20) 6]).
    assert (N1 : norm (vsub (Robot.position r2) (Robot.position r1)) = 10).
    { apply norm_eq; [lra | unfold vsub, vx, vz; simpl; lra]. }
    assert (P1 : new_position r1 (Robot.position r2) = (0.2, 0)).
    { unfold new_position; cbv zeta. rewrite N1.
      unfold vadd, vscale, vdiv, vsub, vx, vz; simpl. f_equal; lra. }
    assert (H1 : Robot.update r1 r2 obstacles = Robot.set_position r1 (0.2, 0)).
    { rewrite update_in_sight.
      - rewrite P1. reflexivity.
      - unfold Robot.can_see, obstacles; cbv zeta. cbn [Robot.can_see_loop].
        rewrite line_intersects_box_above; [reflexivity | |];
          unfold vz; simpl; lra.
      - rewrite N1. lra.
      - rewrite P1. unfold obstacles. eval_cmp. }
    rewrite H1.
    set (m1 := Robot.set_position r1 (0.2, 0)).
    assert (N2 : norm (vsub (Robot.position m1) (Robot.position r2)) = 9.8).
    { apply norm_eq; [lra | unfold vsub, vx, vz; simpl; lra]. }
    assert (P2 : new_position r2 (Robot.position m1) = (9.8, 0)).
    { unfold new_position; cbv zeta. rewrite N2.
      unfold vadd, vscale, vdiv, vsub, vx, vz; simpl. f_equal; lra. }
    assert (H2 : Robot.update r2 m1 obstacles = Robot.set_position r2 (9.8, 0)).
    { rewrite update_in_sight.
      - rewrite P2. reflexivity.
      - unfold Robot.can_see, obstacles; cbv zeta. cbn [Robot.can_see_loop].
        rewrite line_intersects_box_above; [reflexivity | |];
          unfold vz; simpl; lra.
      - rewrite N2. lra.
      - rewrite P2. unfold obstacles. eval_cmp. }
    rewrite H2.
    unfold reset_on_collision.
    assert (N3 : norm (vsub (Robot.position m1)
                            (Robot.position (Robot.set_position r2 (9.8, 0))))
                 = 9.6).
    { apply norm_eq; [lra | unfold vsub, vx, vz; simpl; lra]. }
    rewrite N3.
    assert (Hfar : (9.6 <? Robot.size m1) = false)
      by (apply Rltb_false; simpl; lra).
    rewrite Hfar. reflexivity.
Defined.

(** ** Pursuit in the open *)

Lemma norm_vsub_sym (a b : vec) : norm (vsub a b) = norm (vsub b a).
Proof.
  unfold norm, vsub, vx, vz; cbn [fst snd]. f_equal. ring.
Qed.

(** X18: without obstacles each robot walks straight at the other.  When
    the robots are [d] apart, with [d] and |d - speed1| above 0.01, they are
    ||d - speed1| - speed2| apart after both updates of a frame: the second
    robot measures its step from the place the first one has reached. *)
Theorem approach_without_obstacles (r1 r2 : Robot.t) :
  let d := norm (vsub (Robot.position r2) (Robot.position r1)) in
  0.01 < d ->
  0.01 < Rabs (d - Robot.speed r1) ->
  norm (vsub (Robot.position (fst (update_robots [] r1 r2)))
             (Robot.position (snd (update_robots [] r1 r2))))
  = Rabs (Rabs (d - Robot.speed r1) - Robot.speed r2).
Proof.
  intros d Hd Hd1. unfold update_robots; cbv zeta. cbn [fst snd].
  assert (H1 : Robot.update r1 r2 []
               = Robot.set_position r1 (new_position r1 (Robot.position r2))).
  { apply update_in_sight; [reflexivity | exact Hd | reflexivity]. }
  rewrite H1.
  set (m1 := Robot.set_position r1 (new_position r1 (Robot.position r2))).
  assert (Hd0 : 0 < d) by lra.
  destruct (new_position_geometry r1 (Robot.position r2) Hd0) as [_ G1].
  fold d in G1.
  assert (N2 : norm (vsub (Robot.position m1) (Robot.position r2))
               = Rabs (d - Robot.speed r1)).
  { rewrite norm_vsub_sym. exact G1. }
  assert (H2 : Robot.update r2 m1 []
               = Robot.set_position r2 (new_position r2 (Robot.position m1))).
  { apply update_in_sight; [reflexivity | rewrite N2; exact Hd1 | reflexivity]. }
  rewrite H2. cbn [Robot.set_position Robot.position].
  assert (Hpos : 0 < norm (vsub (Robot.position m1) (Robot.position r2)))
    by (rewrite N2; lra).
  destruct (new_position_geometry r2 (Robot.position m1) Hpos) as [_ G2].
  rewrite N2 in G2. exact G2.
Qed.

(** Two robots as [main] creates them, 10 apart: 9.6 apart afterwards. *)
Lemma approach_without_obstacles_witness :
  norm (vsub (Robot.position
                (fst (update_robots [] (Robot.init (0, 0) (1, 0, 0)%Z)
                        (Robot.init (10, 0) (0, 0, 1)%Z))))
             (Robot.position
                (snd (update_robots [] (Robot.init (0, 0) (1, 0, 0)%Z)
                        (Robot.init (10, 0) (0, 0, 1)%Z)))))
  = Rabs (Rabs (norm (vsub (10, 0) (0, 0)) - 0.2) - 0.2).
Proof.
  assert (N : norm (vsub (Robot.position (Robot.init (10, 0) (0, 0, 1)%Z))
                         (Robot.position (Robot.init (0, 0) (1, 0, 0)%Z))) = 10).
  { apply norm_eq; [lra | unfold vsub, vx, vz; simpl; lra]. }
  apply (approach_without_obstacles (Robot.init (0, 0) (1, 0, 0)%Z)
           (Robot.init (10, 0) (0, 0, 1)%Z)).
  - rewrite N. lra.
  - rewrite N. rewrite Rabs_right; simpl; lra.
Defined.

(** ** The overlap test *)

(** X20: the collision test does not depend on which square is the object
    and which the obstacle. *)
Theorem collides_swap (pos center : vec) (obj_size obs_size : R) :
  collides_with_obstacles pos [Obstacle.mk center obs_size] obj_size
  = collides_with_obstacles center [Obstacle.mk pos obj_size] obs_size.
Proof.
  cbn [collides_with_obstacles Obstacle.position Obstacle.size]. cbv zeta.
  rewrite (Rabs_minus_sym (vx pos) (vx center)).
  rewrite (Rabs_minus_sym (vz pos) (vz center)).
  rewrite (Rplus_comm (obs_size / 2.0) (obj_size / 2.0)).
  reflexivity.
Qed.
